(** * DenseClus: the fit/predict orchestrator of [denseclus/DenseClus.py]

    A shallow embedding of the class [DenseClus]: its constructor (the
    configuration resolver), [fit] with its four private steps,
    [_predict_base] with [predict] and [predict_proba], and [score].

    The libraries the class drives (umap-learn, hdbscan, numpy, and the
    feature extraction of [denseclus.utils]) are an interface, [Collab]:
    the embedding fixes which calls the class makes, in which order, with
    which arguments, and what it does with their results and their
    exceptions, for every behaviour of those libraries. *)

From Stdlib Require Import ZArith String List.
From stdpp Require Import base option gmap strings list fin_maps.

Local Open Scope Z_scope.
Local Open Scope string_scope.
Local Open Scope list_scope.

(** ** Python values, keyword dictionaries, exceptions *)

(** The hyper-parameter values that occur in the configuration
    dictionaries.  A float literal is kept as a fraction. *)
Inductive value :=
| VNone
| VBool (b : bool)
| VInt (z : Z)
| VFloat (num : Z) (den : positive)
| VStr (s : string).

#[global] Instance value_eq_dec : EqDecision value.
Proof. solve_decision. Defined.

(** A parameter group, or a dictionary of keyword arguments. *)
Abbreviation dict := (gmap string value).

(** The exception classes the class raises or that matter to its
    callers, and any class derived from one of them.  [Derived name base]
    is a class declared as [class name(base)]: so [SystemExit] and
    [GeneratorExit] are [Derived] from [BaseException], a library's own
    error class is [Derived] from [Exception] or from one of its
    subclasses. *)
Inductive exc_class :=
| BaseException
| KeyboardInterrupt
| Exception
| ValueError
| TypeError
| AttributeError
| KeyError
| NotFittedError
| Derived (name : string) (base : exc_class).

#[global] Instance exc_class_eq_dec : EqDecision exc_class.
Proof.
  intros c. induction c as [| | | | | | | |n b IH];
    intros [| | | | | | | |n' b'];
    try (left; reflexivity); try (right; discriminate).
  destruct (decide (n = n')) as [->|Hn]; [|right; congruence].
  destruct (IH b') as [->|Hb]; [left; reflexivity|right; congruence].
Defined.

(** The classes a class derives from, itself first, with Python's (and
    scikit-learn's) inheritance: [Exception] and [KeyboardInterrupt]
    derive from [BaseException] only, the built-in errors from
    [Exception], [NotFittedError] from both [ValueError] and
    [AttributeError].  ([LookupError], between [KeyError] and
    [Exception], is no class of this model.) *)
Fixpoint mro (c : exc_class) : list exc_class :=
  match c with
  | BaseException => [BaseException]
  | KeyboardInterrupt => [KeyboardInterrupt; BaseException]
  | Exception => [Exception; BaseException]
  | ValueError => [ValueError; Exception; BaseException]
  | TypeError => [TypeError; Exception; BaseException]
  | AttributeError => [AttributeError; Exception; BaseException]
  | KeyError => [KeyError; Exception; BaseException]
  | NotFittedError =>
      [NotFittedError; ValueError; AttributeError; Exception; BaseException]
  | Derived _ base => c :: mro base
  end.

Definition issubclass (c d : exc_class) : bool := bool_decide (d ∈ mro c).

(** An exception object: its class and [str(e)]. *)
Record exn := Exn { exn_class : exc_class; exn_str : string }.

#[global] Instance exn_eq_dec : EqDecision exn.
Proof. solve_decision. Defined.

Definition isinstance (e : exn) (c : exc_class) : bool :=
  issubclass (exn_class e) c.

(** ** Computations: state passing with exceptions

    A statement either returns or raises; in both cases the mutations
    made so far stay. *)
Inductive result (A : Type) :=
| Ok (a : A)
| Raise (e : exn).
Arguments Ok {A} a.
Arguments Raise {A} e.

Definition M (S A : Type) : Type := S -> result A * S.

Definition ret {S A} (a : A) : M S A := fun s => (Ok a, s).

Definition raise {S A} (e : exn) : M S A := fun s => (Raise e, s).

Definition bind {S A B} (m : M S A) (k : A -> M S B) : M S B :=
  fun s => match m s with
           | (Ok a, s') => k a s'
           | (Raise e, s') => (Raise e, s')
           end.

Notation "x <- m ;; k" := (bind m (fun x => k))
  (at level 100, m at next level, right associativity).
Notation "m ;; k" := (bind m (fun _ => k))
  (at level 100, right associativity).

Definition gets {S A} (f : S -> A) : M S A := fun s => (Ok (f s), s).

Definition modify {S} (f : S -> S) : M S unit := fun s => (Ok tt, f s).

(** [try: body except Exception as e: handler e]. An exception that does
    not derive from [Exception] passes through. *)
Definition try_except {S A} (body : M S A) (handler : exn -> M S A) : M S A :=
  fun s => match body s with
           | (Raise e, s') =>
               if isinstance e Exception then handler e s' else (Raise e, s')
           | r => r
           end.

(** Run a computation on one component of the state. *)
Definition zoom {S T A} (get : S -> T) (set : T -> S -> S) (m : M T A) : M S A :=
  fun s => let '(r, t') := m (get s) in (r, set t' s).

(** A call with explicit keywords and an unpacked dictionary: Python
    refuses a keyword given both ways. *)
Definition call_kwargs (fname : string) (explicit : list (string * value))
    (extra : dict) : result dict :=
  match List.find (fun kv => bool_decide (is_Some (extra !! kv.1))) explicit with
  | Some kv =>
      Raise (Exn TypeError
               (fname +:+ "() got multiple values for keyword argument '"
                  +:+ kv.1 +:+ "'"))
  | None => Ok (list_to_map explicit ∪ extra)
  end.

(** ** The collaborators *)

(** What flows into an operator or into the cluster engine: a coordinate
    matrix or a fitted embedding model. *)
Inductive pyobj (Matrix Model : Type) :=
| OMatrix (a : Matrix)
| OModel (m : Model).
Arguments OMatrix {Matrix Model} a.
Arguments OModel {Matrix Model} m.

Inductive binop := Mul | Add | Sub.

(** The argument of [fit] and [predict]. *)
Inductive pyarg (Table : Type) :=
| DataFrame (t : Table)
| NotDataFrame (v : value).
Arguments DataFrame {Table} t.
Arguments NotDataFrame {Table} v.

Definition isinstance_DataFrame {Table} (x : pyarg Table) : bool :=
  match x with DataFrame _ => true | NotDataFrame _ => false end.

(** [World] is whatever a library result may depend on besides the
    arguments of the call: the global random generator, the scheduling of
    worker threads. *)
Class Collab := {
  Table : Type;      (* contents of a pandas DataFrame *)
  Matrix : Type;     (* extracted features, embedding coordinates *)
  Model : Type;      (* a fitted umap.UMAP *)
  Clusterer : Type;  (* a fitted hdbscan.HDBSCAN *)
  Labels : Type;
  Strengths : Type;
  World : Type;
  (* denseclus.utils, on a table *)
  split_categorical : Table -> dict -> result Matrix;
  split_numerical : Table -> dict -> result Matrix;
  not_a_table : string;
  (* numpy *)
  np_random_seed : Z -> World -> result unit * World;
  np_binop : binop -> Matrix -> Matrix -> result Matrix;
  (* UMAP constructed from kw then .fit(X); .transform(X); the operators *)
  umap_fit : dict -> Matrix -> World -> result Model * World;
  umap_transform : Model -> Matrix -> World -> result Matrix * World;
  umap_binop : binop -> Model -> pyobj Matrix Model -> World -> result Model * World;
  embedding_ : Model -> Matrix;
  (* HDBSCAN constructed from kw then .fit(X); approximate_predict *)
  hdbscan_fit : dict -> Matrix -> World -> result Clusterer * World;
  labels_ : Clusterer -> Labels;
  probabilities_ : Clusterer -> Strengths;
  approximate_predict :
    Clusterer -> pyobj Matrix Model -> result (Labels * Strengths);
}.

Section Orchestrator.
Context {C : Collab}.

(** The calls made to the collaborators, as a trace. *)
Inductive event :=
| EvSeed (seed : Z)
| EvExtractCategorical (x : pyarg Table) (kw : dict)
| EvExtractNumerical (x : pyarg Table) (kw : dict)
| EvUmapFit (kw : dict) (X : Matrix)
| EvUmapTransform (m : Model) (X : Matrix)
| EvUmapBinop (op : binop) (m : Model) (other : pyobj Matrix Model)
| EvNumpyBinop (op : binop) (a b : Matrix)
| EvHdbscanFit (kw : dict) (X : Matrix)
| EvApproximatePredict (c : Clusterer) (x : pyobj Matrix Model).

(** ** Process-wide state

    The module-level logger ["denseclus"], the attribute [warnings.warn],
    and the libraries' world. *)
Definition DEBUG : Z := 10.
Definition INFO : Z := 20.
Definition ERROR : Z := 40.

Inductive warn_fn := warn_original | warn_noop.

Record proc := Proc {
  logger_level : Z;
  handled : list (Z * string);      (* records that reached the handler *)
  warnings_warn : warn_fn;          (* the attribute warnings.warn *)
  shown_warnings : list string;     (* warnings that were issued *)
  world : World;
  calls : list event;               (* oldest first *)
}.

Definition set_logger_level (l : Z) (p : proc) : proc :=
  match p with Proc _ h f sw w c => Proc l h f sw w c end.
Definition set_handled (h : list (Z * string)) (p : proc) : proc :=
  match p with Proc l _ f sw w c => Proc l h f sw w c end.
Definition set_warnings_warn (f : warn_fn) (p : proc) : proc :=
  match p with Proc l h _ sw w c => Proc l h f sw w c end.
Definition set_shown_warnings (sw : list string) (p : proc) : proc :=
  match p with Proc l h f _ w c => Proc l h f sw w c end.
Definition set_world (w : World) (p : proc) : proc :=
  match p with Proc l h f sw _ c => Proc l h f sw w c end.
Definition set_calls (c : list event) (p : proc) : proc :=
  match p with Proc l h f sw w _ => Proc l h f sw w c end.

(** The state right after [import denseclus]: the logger is set to
    ERROR, [warnings.warn] is the library's. *)
Definition module_loaded (w : World) : proc :=
  Proc ERROR [] warn_original [] w [].

(** [logger.log(level, msg)]: handled when the level is enabled. *)
Definition logger_log (level : Z) (msg : string) : M proc unit :=
  modify (fun p => if Z.leb (logger_level p) level
                   then set_handled (handled p ++ [(level, msg)]) p
                   else p).
Definition logger_info := logger_log INFO.
Definition logger_error := logger_log ERROR.
Definition logger_setLevel (l : Z) : M proc unit := modify (set_logger_level l).

(** [warnings.warn(msg)], as any code of the process calls it. *)
Definition warnings_warn_call (msg : string) : M proc unit :=
  modify (fun p => match warnings_warn p with
                   | warn_original => set_shown_warnings (shown_warnings p ++ [msg]) p
                   | warn_noop => p
                   end).

(** A library call whose result may depend on the world. *)
Definition call {A} (ev : event) (f : World -> result A * World) : M proc A :=
  fun p => let '(r, w') := f (world p) in
           (r, set_world w' (set_calls (calls p ++ [ev]) p)).

(** A library call that is a function of its arguments. *)
Definition call_pure {A} (ev : event) (r : result A) : M proc A :=
  fun p => (r, set_calls (calls p ++ [ev]) p).

Definition lift_result {S A} (r : result A) : M S A := fun s => (r, s).

(** ** The instance

    The constructor's attributes, then the attributes that [fit] adds;
    an attribute that has not been assigned yet is [None] and reading it
    raises [AttributeError].  [random_state] is an [int] or [None], as the
    docstring has it. *)
Record DenseClus := Build_DenseClus {
  random_state : option Z;
  umap_combine_method : string;
  umap_params : gmap string dict;
  hdbscan_params : dict;
  verbose : bool;
  kwargs : dict;
  categorical_ : option Matrix;
  numerical_ : option Matrix;
  categorical_umap_ : option Model;
  numerical_umap_ : option Model;
  mapper_ : option Model;
  hdbscan_ : option Clusterer;
}.

Definition set_categorical_ (x : Matrix) (d : DenseClus) : DenseClus :=
  match d with
  | Build_DenseClus rs m up hp v kw _ n cu nu mp h =>
      Build_DenseClus rs m up hp v kw (Some x) n cu nu mp h
  end.
Definition set_numerical_ (x : Matrix) (d : DenseClus) : DenseClus :=
  match d with
  | Build_DenseClus rs m up hp v kw c _ cu nu mp h =>
      Build_DenseClus rs m up hp v kw c (Some x) cu nu mp h
  end.
Definition set_categorical_umap_ (x : Model) (d : DenseClus) : DenseClus :=
  match d with
  | Build_DenseClus rs m up hp v kw c n _ nu mp h =>
      Build_DenseClus rs m up hp v kw c n (Some x) nu mp h
  end.
Definition set_numerical_umap_ (x : Model) (d : DenseClus) : DenseClus :=
  match d with
  | Build_DenseClus rs m up hp v kw c n cu _ mp h =>
      Build_DenseClus rs m up hp v kw c n cu (Some x) mp h
  end.
Definition set_mapper_ (x : Model) (d : DenseClus) : DenseClus :=
  match d with
  | Build_DenseClus rs m up hp v kw c n cu nu _ h =>
      Build_DenseClus rs m up hp v kw c n cu nu (Some x) h
  end.
Definition set_hdbscan_ (x : Clusterer) (d : DenseClus) : DenseClus :=
  match d with
  | Build_DenseClus rs m up hp v kw c n cu nu mp _ =>
      Build_DenseClus rs m up hp v kw c n cu nu mp (Some x)
  end.

(** A method runs on the instance and the process. *)
Record st := St { self : DenseClus; glob : proc }.

Definition global {A} (m : M proc A) : M st A :=
  zoom glob (fun p s => St (self s) p) m.

(** The exception of reading an attribute that has not been assigned. *)
Definition missing (name : string) : exn :=
  Exn AttributeError ("'DenseClus' object has no attribute '" +:+ name +:+ "'").

Definition getattr {A} (name : string) (field : DenseClus -> option A) : M st A :=
  fun s => match field (self s) with
           | Some a => (Ok a, s)
           | None => (Raise (missing name), s)
           end.

Definition setattr (upd : DenseClus -> DenseClus) : M st unit :=
  modify (fun s => St (upd (self s)) (glob s)).

Definition getitem (d : gmap string dict) (k : string) : result dict :=
  match d !! k with
  | Some g => Ok g
  | None => Raise (Exn KeyError ("'" +:+ k +:+ "'"))
  end.

(** ** [__init__]: the configuration resolver *)

Definition strategies : list string :=
  ["intersection"; "union"; "contrast"; "intersection_union_mapper"].

Definition default_umap_params : gmap string dict :=
  {[ "categorical" :=
       {[ "metric" := VStr "dice"; "n_neighbors" := VInt 30;
          "n_components" := VInt 5; "min_dist" := VFloat 0 1 ]};
     "numerical" :=
       {[ "metric" := VStr "l2"; "n_neighbors" := VInt 30;
          "n_components" := VInt 5; "min_dist" := VFloat 0 1 ]};
     "combined" :=
       {[ "n_neighbors" := VInt 30; "min_dist" := VFloat 0 1;
          "n_components" := VInt 5 ]} ]}.

Definition default_hdbscan_params : dict :=
  {[ "min_cluster_size" := VInt 100; "min_samples" := VInt 15;
     "gen_min_span_tree" := VBool true; "metric" := VStr "euclidean" ]}.

(** [d.update(u)]: the keys of [u] win, the other keys of [d] stay. *)
Definition dict_update (d u : dict) : dict := u ∪ d.

(** The loop [for key in umap_params], over the user's groups in the
    order the mapping yields them. *)
Fixpoint update_groups (groups : gmap string dict) (user : list (string * dict))
    : result (gmap string dict) :=
  match user with
  | [] => Ok groups
  | (key, grp) :: rest =>
      match groups !! key with
      | Some d => update_groups (<[key := dict_update d grp]> groups) rest
      | None =>
          Raise (Exn ValueError ("Invalid key '" +:+ key +:+ "' in umap_params"))
      end
  end.

(** Truth value of an optional mapping: [None] and the empty mapping are
    false. *)
Definition truthy_groups (u : option (list (string * dict))) : bool :=
  match u with Some (_ :: _) => true | _ => false end.
Definition truthy_dict (u : option dict) : bool :=
  match u with Some d => negb (bool_decide (d = ∅)) | None => false end.

Definition __init__ (random_state : option Z) (umap_combine_method : string)
    (verbose : bool) (umap_params : option (list (string * dict)))
    (hdbscan_params : option dict) (kwargs : dict) : M proc DenseClus :=
  if negb (bool_decide (umap_combine_method ∈ strategies))
  then raise (Exn ValueError "umap_combine_method must be valid selection")
  else
    ups <- (if truthy_groups umap_params
            then lift_result
                   (update_groups default_umap_params (default [] umap_params))
            else ret default_umap_params) ;;
    let hps := if truthy_dict hdbscan_params
               then default ∅ hdbscan_params
               else default_hdbscan_params in
    (if verbose
     then logger_setLevel DEBUG
     else (logger_setLevel ERROR ;; modify (set_warnings_warn warn_noop))) ;;
    match random_state with
    | Some seed => call (EvSeed seed) (np_random_seed seed)
    | None => logger_info "No random seed passed, running UMAP in Numba, parallel"
    end ;;
    ret (Build_DenseClus random_state umap_combine_method ups hps verbose kwargs
           None None None None None None).

(** ** [fit] and its steps *)

(** Modelled from the spec: the Feature Splitter, [extract_categorical]
    and [extract_numerical] of [denseclus/utils.py], which this file
    imports and calls but which is not part of it.  It turns a table into
    the categorical or the numerical matrix, and an argument that is not a
    table fails with a [TypeError] (the input contract of [fit] and
    [predict]).  What it does on a table is the collaborator's. *)
Definition extract_categorical (x : pyarg Table) (kw : dict) : M proc Matrix :=
  call_pure (EvExtractCategorical x kw)
    match x with
    | DataFrame t => split_categorical t kw
    | NotDataFrame _ => Raise (Exn TypeError not_a_table)
    end.

(** Modelled from the spec: the numerical half of the Feature Splitter,
    as [extract_categorical] above. *)
Definition extract_numerical (x : pyarg Table) (kw : dict) : M proc Matrix :=
  call_pure (EvExtractNumerical x kw)
    match x with
    | DataFrame t => split_numerical t kw
    | NotDataFrame _ => Raise (Exn TypeError not_a_table)
    end.

(** The keywords every embedding fit is given: the instance's seed, and
    one job when there is a seed. *)
Definition rs_value (rs : option Z) : value :=
  match rs with Some z => VInt z | None => VNone end.
Definition n_jobs (rs : option Z) : value :=
  VInt (match rs with Some _ => 1 | None => -1 end).

Definition _fit_numerical : M st unit :=
  try_except
    (global (logger_info "Fitting UMAP for Numerical data") ;;
     rs <- gets (fun s => random_state (self s)) ;;
     grp <- gets (fun s => getitem (umap_params (self s)) "numerical") ;;
     grp <- lift_result grp ;;
     kw <- lift_result
             (call_kwargs "UMAP"
                [("random_state", rs_value rs); ("n_jobs", n_jobs rs);
                 ("verbose", VBool false)] grp) ;;
     X <- getattr "numerical_" numerical_ ;;
     numerical_umap <- global (call (EvUmapFit kw X) (umap_fit kw X)) ;;
     setattr (set_numerical_umap_ numerical_umap) ;;
     global (logger_info "Numerical UMAP fitted successfully"))
    (fun e =>
       global (logger_error ("Failed to fit numerical UMAP: " +:+ exn_str e)) ;;
       raise e).

Definition _fit_categorical : M st unit :=
  try_except
    (global (logger_info "Fitting UMAP for categorical data") ;;
     rs <- gets (fun s => random_state (self s)) ;;
     grp <- gets (fun s => getitem (umap_params (self s)) "categorical") ;;
     grp <- lift_result grp ;;
     kw <- lift_result
             (call_kwargs "UMAP"
                [("random_state", rs_value rs); ("n_jobs", n_jobs rs);
                 ("verbose", VBool false)] grp) ;;
     X <- getattr "categorical_" categorical_ ;;
     categorical_umap <- global (call (EvUmapFit kw X) (umap_fit kw X)) ;;
     setattr (set_categorical_umap_ categorical_umap) ;;
     global (logger_info "Categorical UMAP fitted successfully"))
    (fun e =>
       global (logger_error ("Failed to fit numerical UMAP: " +:+ exn_str e)) ;;
       raise e).

(** [a op b] on two fitted models, or on a model and anything else: the
    operator of the left operand, a UMAP model. *)
Definition model_op (op : binop) (m : Model) (other : pyobj Matrix Model)
    : M st Model :=
  global (call (EvUmapBinop op m other) (umap_binop op m other)).

(** [a op b] on two coordinate matrices: numpy's. *)
Definition matrix_op (op : binop) (a b : Matrix) : M st Matrix :=
  global (call_pure (EvNumpyBinop op a b) (np_binop op a b)).

Definition _umap_embeddings : M st unit :=
  method <- gets (fun s => umap_combine_method (self s)) ;;
  global (logger_info ("Combining UMAP embeddings using method: " +:+ method)) ;;
  if String.eqb method "intersection" then
    n <- getattr "numerical_umap_" numerical_umap_ ;;
    c <- getattr "categorical_umap_" categorical_umap_ ;;
    m <- model_op Mul n (OModel c) ;;
    setattr (set_mapper_ m)
  else if String.eqb method "union" then
    n <- getattr "numerical_umap_" numerical_umap_ ;;
    c <- getattr "categorical_umap_" categorical_umap_ ;;
    m <- model_op Add n (OModel c) ;;
    setattr (set_mapper_ m)
  else if String.eqb method "contrast" then
    n <- getattr "numerical_umap_" numerical_umap_ ;;
    c <- getattr "categorical_umap_" categorical_umap_ ;;
    m <- model_op Sub n (OModel c) ;;
    setattr (set_mapper_ m)
  else if String.eqb method "intersection_union_mapper" then
    rs <- gets (fun s => random_state (self s)) ;;
    grp <- gets (fun s => getitem (umap_params (self s)) "combined") ;;
    grp <- lift_result grp ;;
    kw <- lift_result
            (call_kwargs "UMAP"
               [("random_state", rs_value rs); ("n_jobs", n_jobs rs)] grp) ;;
    X <- getattr "numerical_" numerical_ ;;
    intersection_mapper <- global (call (EvUmapFit kw X) (umap_fit kw X)) ;;
    n <- getattr "numerical_umap_" numerical_umap_ ;;
    c <- getattr "categorical_umap_" categorical_umap_ ;;
    u <- model_op Add n (OModel c) ;;
    m <- model_op Mul intersection_mapper (OModel u) ;;
    setattr (set_mapper_ m)
  else
    global (logger_error ("Invalid UMAP combine method: " +:+ method)) ;;
    raise (Exn ValueError "Select valid UMAP combine method").

Definition _fit_hdbscan : M st unit :=
  global (logger_info "Fitting HDBSCAN with default parameters") ;;
  hp <- gets (fun s => hdbscan_params (self s)) ;;
  kw <- lift_result (call_kwargs "HDBSCAN" [("prediction_data", VBool true)] hp) ;;
  mp <- getattr "mapper_" mapper_ ;;
  hdb_ <- global (call (EvHdbscanFit kw (embedding_ mp))
                    (hdbscan_fit kw (embedding_ mp))) ;;
  setattr (set_hdbscan_ hdb_) ;;
  global (logger_info "HDBSCAN fit").

Definition fit (df : pyarg Table) : M st unit :=
  if negb (isinstance_DataFrame df)
  then raise (Exn TypeError "Requires DataFrame as input")
  else
    global (logger_info "Extracting categorical features") ;;
    kw <- gets (fun s => kwargs (self s)) ;;
    c <- global (extract_categorical df kw) ;;
    setattr (set_categorical_ c) ;;
    global (logger_info "Extracting numerical features") ;;
    kw <- gets (fun s => kwargs (self s)) ;;
    n <- global (extract_numerical df kw) ;;
    setattr (set_numerical_ n) ;;
    global (logger_info "Fitting categorical UMAP") ;;
    _fit_categorical ;;
    global (logger_info "Fitting numerical UMAP") ;;
    _fit_numerical ;;
    global (logger_info "Mapping/Combining Embeddings") ;;
    _umap_embeddings ;;
    global (logger_info "Fitting HDBSCAN...") ;;
    _fit_hdbscan.

(** ** [predict], [predict_proba], [score] *)

Definition _predict_base (df_new : pyarg Table) : M st (Labels * Strengths) :=
  kw <- gets (fun s => kwargs (self s)) ;;
  categorical_new <- global (extract_categorical df_new kw) ;;
  kw <- gets (fun s => kwargs (self s)) ;;
  numerical_new <- global (extract_numerical df_new kw) ;;
  cu <- getattr "categorical_umap_" categorical_umap_ ;;
  categorical_embedding <-
    global (call (EvUmapTransform cu categorical_new)
              (umap_transform cu categorical_new)) ;;
  nu <- getattr "numerical_umap_" numerical_umap_ ;;
  numerical_embedding <-
    global (call (EvUmapTransform nu numerical_new)
              (umap_transform nu numerical_new)) ;;
  method <- gets (fun s => umap_combine_method (self s)) ;;
  mapper_new <-
    (if String.eqb method "intersection" then
       m <- matrix_op Mul numerical_embedding categorical_embedding ;;
       ret (OMatrix m)
     else if String.eqb method "union" then
       m <- matrix_op Add numerical_embedding categorical_embedding ;;
       ret (OMatrix m)
     else if String.eqb method "contrast" then
       m <- matrix_op Sub numerical_embedding categorical_embedding ;;
       ret (OMatrix m)
     else if String.eqb method "intersection_union_mapper" then
       global (logger_info "Refitting new UMAP for Intersection Mapper") ;;
       rs <- gets (fun s => random_state (self s)) ;;
       grp <- gets (fun s => getitem (umap_params (self s)) "combined") ;;
       grp <- lift_result grp ;;
       kw <- lift_result
               (call_kwargs "UMAP"
                  [("random_state", rs_value rs); ("n_jobs", n_jobs rs)] grp) ;;
       intersection_mapper <-
         global (call (EvUmapFit kw numerical_embedding)
                   (umap_fit kw numerical_embedding)) ;;
       u <- matrix_op Add numerical_embedding categorical_embedding ;;
       m <- model_op Mul intersection_mapper (OMatrix u) ;;
       ret (OModel m)
     else
       raise (Exn ValueError "Select valid UMAP combine method")) ;;
  h <- getattr "hdbscan_" hdbscan_ ;;
  global (call_pure (EvApproximatePredict h mapper_new)
            (approximate_predict h mapper_new)).

Definition predict (df_new : pyarg Table) : M st Labels :=
  r <- _predict_base df_new ;;
  ret (fst r).

Definition predict_proba (df_new : pyarg Table) : M st Strengths :=
  r <- _predict_base df_new ;;
  ret (snd r).

Definition score : M st Labels :=
  h <- getattr "hdbscan_" hdbscan_ ;;
  ret (labels_ h).

(** ** Vocabulary of the specification *)

(** The two validation conditions of the constructor; both are
    [ValueError]s, told apart by their text. *)
Definition InvalidStrategy : exn :=
  Exn ValueError "umap_combine_method must be valid selection".
Definition InvalidConfigKey (key : string) : exn :=
  Exn ValueError ("Invalid key '" +:+ key +:+ "' in umap_params").

(** The first group name of the user's mapping that the defaults do not
    have. *)
Definition first_unknown_group (user : list (string * dict)) : option string :=
  fst <$> List.find
            (fun kv => bool_decide (default_umap_params !! kv.1 = None)) user.

(** The records of level ERROR among the handled ones. *)
Definition error_records (p : proc) : list string :=
  omap (fun r => if Z.eqb (fst r) ERROR then Some (snd r) else None) (handled p).

(** Two process states that differ at most in the log. *)
Definition same_but_log (p q : proc) : Prop :=
  set_handled [] p = set_handled [] q.

(** The strategy as an enumeration. *)
Inductive strategy :=
| Intersection
| Union
| Contrast
| IntersectionUnionMapper.

Definition strategy_of (name : string) : option strategy :=
  if String.eqb name "intersection" then Some Intersection
  else if String.eqb name "union" then Some Union
  else if String.eqb name "contrast" then Some Contrast
  else if String.eqb name "intersection_union_mapper" then Some IntersectionUnionMapper
  else None.

(** Predict-time fusion in the specification's words: elementwise
    arithmetic on the transformed coordinates [A'] (numerical) and [B']
    (categorical) for the simple strategies; for the hybrid one a new
    auxiliary model fit on [A'], composed with [A' + B']. *)
Definition fuse_new (sg : strategy) (rs : option Z) (combined : dict)
    (A' B' : Matrix) : M proc (pyobj Matrix Model) :=
  match sg with
  | Intersection =>
      F <- call_pure (EvNumpyBinop Mul A' B') (np_binop Mul A' B') ;; ret (OMatrix F)
  | Union =>
      F <- call_pure (EvNumpyBinop Add A' B') (np_binop Add A' B') ;; ret (OMatrix F)
  | Contrast =>
      F <- call_pure (EvNumpyBinop Sub A' B') (np_binop Sub A' B') ;; ret (OMatrix F)
  | IntersectionUnionMapper =>
      kw <- lift_result
              (call_kwargs "UMAP"
                 [("random_state", rs_value rs); ("n_jobs", n_jobs rs)] combined) ;;
      aux <- call (EvUmapFit kw A') (umap_fit kw A') ;;
      U <- call_pure (EvNumpyBinop Add A' B') (np_binop Add A' B') ;;
      F <- call (EvUmapBinop Mul aux (OMatrix U)) (umap_binop Mul aux (OMatrix U)) ;;
      ret (OModel F)
  end.

(** Prediction in the specification's words (4.3, steps 1 to 4), for the
    fitted models [cu], [nu] and [h]. *)
Definition predict_spec (sg : strategy) (rs : option Z) (kw combined : dict)
    (cu nu : Model) (h : Clusterer) (df_new : pyarg Table)
    : M proc (Labels * Strengths) :=
  Xc <- extract_categorical df_new kw ;;
  Xn <- extract_numerical df_new kw ;;
  B' <- call (EvUmapTransform cu Xc) (umap_transform cu Xc) ;;
  A' <- call (EvUmapTransform nu Xn) (umap_transform nu Xn) ;;
  F <- fuse_new sg rs combined A' B' ;;
  call_pure (EvApproximatePredict h F) (approximate_predict h F).

Definition result_map {A B} (f : A -> B) (r : result A) : result B :=
  match r with Ok a => Ok (f a) | Raise e => Raise e end.

(** ** Relations kept by every run of a computation *)

Definition preserves {S A} (R : S -> S -> Prop) (m : M S A) : Prop :=
  forall s r s', m s = (r, s') -> R s s'.

(** The events added between two process states all satisfy [P]. *)
Definition adds_only (P : event -> Prop) (p p' : proc) : Prop :=
  exists evs, calls p' = calls p ++ evs /\ Forall P evs.

(** An embedding fit that is given the seed and a single job. *)
Definition seeded_fit (seed : Z) (ev : event) : Prop :=
  match ev with
  | EvUmapFit kw _ =>
      kw !! "random_state" = Some (VInt seed) /\ kw !! "n_jobs" = Some (VInt 1)
  | _ => True
  end.

(** A cluster fit with prediction data enabled. *)
Definition with_prediction_data (ev : event) : Prop :=
  match ev with
  | EvHdbscanFit kw _ => kw !! "prediction_data" = Some (VBool true)
  | _ => True
  end.

(** A cluster fit whose keywords, apart from [prediction_data], are the
    given parameters as they are. *)
Definition cluster_fit_unforced (hp : dict) (ev : event) : Prop :=
  match ev with
  | EvHdbscanFit kw _ =>
      forall k, k <> "prediction_data" -> kw !! k = hp !! k
  | _ => True
  end.

(** The keywords a library fit is given by an instance whose seed is
    [rs] and whose clustering parameters are [hp]: an embedding fit gets
    the seed and the job count that goes with it; a cluster fit gets
    [prediction_data=True] and, for the rest, [hp] as it is. *)
Definition as_configured (rs : option Z) (hp : dict) (ev : event) : Prop :=
  match ev with
  | EvUmapFit kw _ =>
      kw !! "random_state" = Some (rs_value rs)
      /\ kw !! "n_jobs" = Some (n_jobs rs)
  | EvHdbscanFit kw _ =>
      kw !! "prediction_data" = Some (VBool true)
      /\ forall k, k <> "prediction_data" -> kw !! k = hp !! k
  | _ => True
  end.

(** What [fit] on the argument [df] may ask of the collaborators: the
    two feature extractions, of [df] with the instance's keyword
    arguments, embedding fits, operators on models, the cluster fit. *)
Definition fit_call (df : pyarg Table) (kw : dict) (ev : event) : Prop :=
  match ev with
  | EvExtractCategorical x k | EvExtractNumerical x k => x = df /\ k = kw
  | EvUmapFit _ _ | EvUmapBinop _ _ _ | EvHdbscanFit _ _ => True
  | _ => False
  end.

(** What a prediction that only reuses the fitted objects of the
    instance [d] may ask: the two extractions, transforms by the two
    embedding models of [d], arithmetic on matrices, the assignment by
    the cluster model of [d]. *)
Definition reuse_call (df : pyarg Table) (d : DenseClus) (ev : event) : Prop :=
  match ev with
  | EvExtractCategorical x k | EvExtractNumerical x k =>
      x = df /\ k = kwargs d
  | EvUmapTransform m _ =>
      categorical_umap_ d = Some m \/ numerical_umap_ d = Some m
  | EvNumpyBinop _ _ _ => True
  | EvApproximatePredict c _ => hdbscan_ d = Some c
  | _ => False
  end.

(** The keywords the embedding steps pass themselves. *)
Definition embedding_keywords : list string :=
  ["random_state"; "n_jobs"; "verbose"].

(** What a step of [fit] on [df] may do, whatever its outcome: it asks
    the libraries only for what [fit] may ask, it leaves the logger
    level alone, and with the level above INFO it writes at most one
    record, of level ERROR, and none when it returns. *)
Definition step_outcome (df : pyarg Table) (kw : dict) (m : M st unit) : Prop :=
  forall s r s', m s = (r, s') ->
    adds_only (fit_call df kw) (glob s) (glob s')
    /\ logger_level (glob s') = logger_level (glob s)
    /\ ((INFO < logger_level (glob s))%Z ->
        exists recs,
          handled (glob s') = handled (glob s) ++ recs
          /\ Forall (fun x => fst x = ERROR) recs
          /\ (length recs <= 1)%nat
          /\ (r = Ok tt -> recs = [])).


(** The attributes the constructor sets. *)
Definition config (d : DenseClus)
    : option Z * string * gmap string dict * dict * bool * dict :=
  (random_state d, umap_combine_method d, umap_params d, hdbscan_params d,
   verbose d, kwargs d).

(** What a method does to the instance and the process it runs in: the
    configuration stays; of the process only the log, the libraries'
    world and the trace change, and the trace grows by calls made as
    configured. *)
Definition method_step (rs : option Z) (hp : dict) (s s' : st) : Prop :=
  random_state (self s) = rs -> hdbscan_params (self s) = hp ->
  config (self s') = config (self s)
  /\ exists h w evs,
      glob s' = Proc (logger_level (glob s)) h (warnings_warn (glob s))
                  (shown_warnings (glob s)) w (calls (glob s) ++ evs)
      /\ Forall (as_configured rs hp) evs.

(** Keywords of a seeded, single-job embedding fit. *)
Definition seeded_kw (kw : dict) : Prop :=
  (exists seed, kw !! "random_state" = Some (VInt seed))
  /\ kw !! "n_jobs" = Some (VInt 1).

(** What reproducibility asks of the libraries, [seeded] being the
    models that carry a seed: the outcome of seeding numpy, of a seeded
    single-job embedding fit, of an operator whose left operand carries
    a seed, and of a cluster fit, is a function of the arguments; and a
    seeded fit and an operator on a seeded model give seeded models. *)
Record reproducible (seeded : Model -> Prop) : Prop := {
  seeding_result : forall z w w',
    fst (np_random_seed z w) = fst (np_random_seed z w');
  seeded_fit_result : forall kw X w w',
    seeded_kw kw -> fst (umap_fit kw X w) = fst (umap_fit kw X w');
  seeded_fit_model : forall kw X w m w',
    seeded_kw kw -> umap_fit kw X w = (Ok m, w') -> seeded m;
  seeded_op_result : forall op m o w w',
    seeded m -> fst (umap_binop op m o w) = fst (umap_binop op m o w');
  seeded_op_model : forall op m o w m' w',
    seeded m -> umap_binop op m o w = (Ok m', w') -> seeded m';
  cluster_fit_result : forall kw X w w',
    fst (hdbscan_fit kw X w) = fst (hdbscan_fit kw X w');
}.

(** An instance with a seed whose numerical embedding model, if fitted,
    carries one. *)
Definition seeded_instance (seeded : Model -> Prop) (d : DenseClus) : Prop :=
  (exists seed, random_state d = Some seed)
  /\ forall m, numerical_umap_ d = Some m -> seeded m.

(** Two runs of a method on the same instance, in whatever process
    states, have the same outcome and leave the same instance. *)
Definition deterministic_on (inv : DenseClus -> Prop) {A} (m : M st A) : Prop :=
  forall s1 s2 r1 r2 s1' s2',
    self s1 = self s2 -> inv (self s1) ->
    m s1 = (r1, s1') -> m s2 = (r2, s2') ->
    r1 = r2 /\ self s1' = self s2' /\ inv (self s1').

(** ** A process using the class

    Instances live in a store; every call sees the same process state. *)
Inductive api_call :=
| New (random_state : option Z) (umap_combine_method : string) (verbose : bool)
      (umap_params : option (list (string * dict)))
      (hdbscan_params : option dict) (kwargs : dict)
| Fit (i : nat) (df : pyarg Table)
| Predict (i : nat) (df : pyarg Table)
| PredictProba (i : nat) (df : pyarg Table)
| Score (i : nat)
| Warn (msg : string).

(** The calls that construct an instance. *)
Definition constructs (c : api_call) : bool :=
  match c with New _ _ _ _ _ _ => true | _ => false end.

Record process := Process { objs : list DenseClus; pglob : proc }.

(** A method call on the [i]-th instance; on a name that is not bound
    nothing happens here. *)
Definition on_instance {A} (i : nat) (m : M st A) (P : process) : process :=
  match objs P !! i with
  | Some d =>
      let s' := snd (m (St d (pglob P))) in
      Process (<[i := self s']> (objs P)) (glob s')
  | None => P
  end.

Definition api_step (P : process) (c : api_call) : process :=
  match c with
  | New rs m v up hp kw =>
      match __init__ rs m v up hp kw (pglob P) with
      | (Ok d, p') => Process (objs P ++ [d]) p'
      | (Raise _, p') => Process (objs P) p'
      end
  | Fit i df => on_instance i (fit df) P
  | Predict i df => on_instance i (predict df) P
  | PredictProba i df => on_instance i (predict_proba df) P
  | Score i => on_instance i score P
  | Warn msg => Process (objs P) (snd (warnings_warn_call msg (pglob P)))
  end.

Definition api_run (P : process) (cs : list api_call) : process :=
  foldl api_step P cs.

(** Construct, then fit a table: the outcome of [fit], the instance as
    [fit] left it, and the process state. *)
Definition construct_and_fit (rs : option Z) (m : string) (v : bool)
    (up : option (list (string * dict))) (hp : option dict) (kw : dict)
    (t : Table) (p : proc) : result unit * option DenseClus * proc :=
  match __init__ rs m v up hp kw p with
  | (Ok d, p1) =>
      let '(r, s) := fit (DataFrame t) (St d p1) in (r, Some (self s), glob s)
  | (Raise e, p1) => (Raise e, None, p1)
  end.

End Orchestrator.

(** ** A small concrete set of collaborators

    Integer matrices; an embedding model remembers its keywords, its
    training data and a shift that is the seed when the fit is seeded and
    single-job, and otherwise comes from the world, which every fit
    advances.  The libraries' refusals that the runs below meet are there:
    an unknown keyword, a seed out of range, fewer samples than
    [min_samples], shapes that do not match, a model composed with
    something that is not a model. *)
Module Small.

Inductive model :=
| Fitted (kw : dict) (X : list (list Z)) (shift : Z)
| Composed (op : binop) (a b : model).

Definition zop (op : binop) : Z -> Z -> Z :=
  match op with Mul => Z.mul | Add => Z.add | Sub => Z.sub end.

Fixpoint shift_of (m : model) : Z :=
  match m with
  | Fitted _ _ sh => sh
  | Composed _ a _ => shift_of a
  end.

Fixpoint embedding (m : model) : list (list Z) :=
  match m with
  | Fitted _ X sh => List.map (List.map (Z.add sh)) X
  | Composed op a b => zip_with (zip_with (zop op)) (embedding a) (embedding b)
  end.

Definition umap_keywords : list string :=
  ["random_state"; "n_jobs"; "verbose"; "metric"; "n_neighbors";
   "n_components"; "min_dist"].

Definition fit_umap (kw : dict) (X : list (list Z)) (w : Z)
    : result model * Z :=
  if bool_decide (dom kw ⊆ list_to_set umap_keywords) then
    match X with
    | [] => (Raise (Exn ValueError "Found array with 0 sample(s)"), w)
    | _ =>
        let sh := match kw !! "random_state", kw !! "n_jobs" with
                  | Some (VInt seed), Some (VInt 1) => seed
                  | _, _ => w
                  end in
        (Ok (Fitted kw X sh), w + 1)
    end
  else (Raise (Exn TypeError "UMAP() got an unexpected keyword argument"), w).

Definition transform (m : model) (X : list (list Z)) (w : Z)
    : result (list (list Z)) * Z :=
  (Ok (List.map (List.map (Z.add (shift_of m))) X), w).

Definition compose (op : binop) (m : model)
    (other : pyobj (list (list Z)) model) (w : Z) : result model * Z :=
  match other with
  | OModel m' => (Ok (Composed op m m'), w)
  | OMatrix _ => (Raise (Exn TypeError "array is not an estimator instance"), w)
  end.

Definition same_shape (a b : list (list Z)) : bool :=
  bool_decide (List.map (@List.length Z) a = List.map (@List.length Z) b).

Definition elementwise (op : binop) (a b : list (list Z))
    : result (list (list Z)) :=
  if same_shape a b then Ok (zip_with (zip_with (zop op)) a b)
  else Raise (Exn ValueError "operands could not be broadcast together").

Definition seed_numpy (seed w : Z) : result unit * Z :=
  if bool_decide (0 <= seed < 2 ^ 32) then (Ok tt, seed)
  else (Raise (Exn ValueError "Seed must be between 0 and 2**32 - 1"), w).

Definition row_label (row : list Z) : Z :=
  if Z.ltb 0 (fold_right Z.add 0 row) then 0 else -1.

Definition fit_hdbscan (kw : dict) (X : list (list Z)) (w : Z)
    : result (dict * list (list Z)) * Z :=
  match kw !! "min_samples" with
  | Some (VInt k) =>
      if Z.ltb (Z.of_nat (List.length X)) k
      then (Raise (Exn ValueError "min_samples exceeds the number of samples"), w)
      else (Ok (kw, X), w)
  | _ => (Ok (kw, X), w)
  end.

Definition assign (h : dict * list (list Z))
    (x : pyobj (list (list Z)) model) : result (list Z * list Z) :=
  match x with
  | OMatrix F => Ok (List.map row_label F, List.map (fun _ => 1) F)
  | OModel _ => Raise (Exn ValueError "points must be an array")
  end.

(** A table row: one numerical and one categorical column. *)
Definition numeric_features (t : list (Z * string)) (kw : dict)
    : result (list (list Z)) :=
  Ok (List.map (fun r => [fst r]) t).

Definition category_features (t : list (Z * string)) (kw : dict)
    : result (list (list Z)) :=
  Ok (List.map (fun r => [if String.eqb (snd r) "a" then 1 else 0]) t).

#[local] Instance collab : Collab := {|
  Table := list (Z * string);
  Matrix := list (list Z);
  Model := model;
  Clusterer := dict * list (list Z);
  Labels := list Z;
  Strengths := list Z;
  World := Z;
  split_categorical := category_features;
  split_numerical := numeric_features;
  not_a_table := "Input should be a pandas DataFrame";
  np_random_seed := seed_numpy;
  np_binop := elementwise;
  umap_fit := fit_umap;
  umap_transform := transform;
  umap_binop := compose;
  embedding_ := embedding;
  hdbscan_fit := fit_hdbscan;
  labels_ := fun h => List.map row_label (snd h);
  probabilities_ := fun h => List.map (fun _ => 1) (snd h);
  approximate_predict := assign;
|}.

Definition table : list (Z * string) := [(3, "a"); (5, "b"); (-4, "a")].

Definition one_sample : dict := {[ "min_samples" := VInt 1 ]}.

(** Two processes that have just loaded the module, in different
    worlds. *)
Definition start : proc := module_loaded 7.
Definition start_again : proc := module_loaded 2026.

(** [DenseClus(umap_combine_method=name, hdbscan_params=hp)] in a fresh
    process, with the defaults for the rest ([random_state=42]). *)
Definition construct (name : string) (hp : option dict)
    : result DenseClus * proc :=
  __init__ (Some 42) name false None hp ∅ start.

Definition fitted (name : string) (hp : option dict)
    : result unit * option DenseClus * proc :=
  construct_and_fit (Some 42) name false None hp ∅ table start.

(** A fit whose categorical group carries a keyword the embedding
    library does not know. *)
Definition fitted_with_unknown_keyword
    : result unit * option DenseClus * proc :=
  construct_and_fit (Some 42) "intersection" false
    (Some [("categorical", {[ "densmap" := VBool true ]})]) None ∅
    table start.

(** An instance with no attribute of its own, for the runs that built
    none. *)
Definition blank : DenseClus :=
  Build_DenseClus None "" ∅ ∅ false ∅ None None None None None None.

(** The blank instance in a process that has just loaded the module. *)
Definition bare : st := St blank start.

(** The instance and the process after the construction. *)
Definition constructed (name : string) (hp : option dict) : st :=
  match construct name hp with
  | (Ok d, p) => St d p
  | (Raise _, p) => St blank p
  end.

(** The instance and the process after construction and [fit]. *)
Definition after_fit (name : string) (hp : option dict) : st :=
  match fitted name hp with
  | (_, Some d, p) => St d p
  | (_, None, p) => St blank p
  end.

(** What the trace says of the library fits: the data of each embedding
    fit, the keywords of each cluster fit. *)
Definition umap_fit_inputs (evs : list event) : list (list (list Z)) :=
  omap (fun ev => match ev with EvUmapFit _ X => Some X | _ => None end) evs.

Definition cluster_fit_keywords (evs : list event) : list dict :=
  omap (fun ev => match ev with EvHdbscanFit kw _ => Some kw | _ => None end)
    evs.

(** Clustering parameters that ask for eight jobs. *)
Definition eight_jobs : dict :=
  {[ "min_samples" := VInt 1; "core_dist_n_jobs" := VInt 8 ]}.

(** An instance as [fit] has it when the fusion step starts, under the
    hybrid strategy. *)
Definition before_fusion : st :=
  St (Build_DenseClus (Some 42) "intersection_union_mapper"
        default_umap_params default_hdbscan_params false ∅
        (Some [[1]; [0]; [1]]) (Some [[3]; [5]; [-4]])
        (Some (Fitted ∅ [[1]; [0]; [1]] 42))
        (Some (Fitted ∅ [[3]; [5]; [-4]] 42)) None None)
     start.


(** The instance and the process after
    [DenseClus(random_state=None, umap_combine_method="union",
    hdbscan_params={"min_samples": 1})]. *)
Definition unseeded : st :=
  match __init__ None "union" false None (Some one_sample) ∅ start with
  | (Ok d, p) => St d p
  | (Raise _, p) => St blank p
  end.

(** An instance whose strategy attribute was assigned, after the
    construction, a name that is none of the four. *)
Definition reassigned : st :=
  St (Build_DenseClus (Some 42) "median" default_umap_params
        default_hdbscan_params false ∅
        (Some [[1]; [0]; [1]]) (Some [[3]; [5]; [-4]])
        (Some (Fitted ∅ [[1]; [0]; [1]] 42))
        (Some (Fitted ∅ [[3]; [5]; [-4]] 42)) None None)
     start.

(** An instance whose numerical group gives a job count, and whose
    clustering parameters give [prediction_data]. *)
Definition with_reserved_keywords : st :=
  St (Build_DenseClus (Some 42) "union"
        {[ "categorical" := ∅; "numerical" := {[ "n_jobs" := VInt 4 ]};
           "combined" := ∅ ]}
        {[ "prediction_data" := VBool false ]} false ∅
        (Some [[1]; [0]; [1]]) (Some [[3]; [5]; [-4]])
        None None (Some (Fitted ∅ [[3]; [5]; [-4]] 42)) None)
     start.

(** User groups with a name the defaults do not have. *)
Definition groups_with_unknown : list (string * dict) :=
  [("categorical", {[ "n_neighbors" := VInt 10 ]}); ("text", ∅)].

End Small.

(** * Facts *)

(** ** The class hierarchy *)

Lemma issubclass_refl c : issubclass c c = true.
Proof.
  unfold issubclass. apply bool_decide_eq_true. destruct c; simpl; left.
Qed.

Lemma issubclass_BaseException c : issubclass c BaseException = true.
Proof.
  unfold issubclass. apply bool_decide_eq_true.
  induction c; simpl; rewrite ?elem_of_cons; auto 10.
Qed.

(** What [except Exception] lets through: the interpreter's exits and
    interrupts, and whatever is derived from them. *)
Lemma not_caught_by_except_Exception name msg :
  isinstance (Exn BaseException msg) Exception = false
  /\ isinstance (Exn KeyboardInterrupt msg) Exception = false
  /\ isinstance (Exn (Derived name BaseException) msg) Exception = false
  /\ isinstance (Exn (Derived name KeyboardInterrupt) msg) Exception = false.
Proof.
  unfold isinstance, issubclass. simpl.
  repeat split; apply bool_decide_eq_false;
    rewrite ?elem_of_cons, elem_of_nil; intros H;
    repeat destruct H as [H|H]; done.
Qed.

Lemma caught_by_except_Exception name base msg :
  issubclass base Exception = true ->
  isinstance (Exn (Derived name base) msg) Exception = true.
Proof.
  unfold isinstance, issubclass. simpl. intros H.
  apply bool_decide_eq_true in H. apply bool_decide_eq_true.
  rewrite elem_of_cons. now right.
Qed.

(** ** Running computations *)

Section Computations.
Context {S : Type}.

Lemma bind_ok {A B} (m : M S A) (k : A -> M S B) s a s' :
  m s = (Ok a, s') -> bind m k s = k a s'.
Proof. intros H. unfold bind. now rewrite H. Qed.

Lemma bind_raise {A B} (m : M S A) (k : A -> M S B) s e s' :
  m s = (Raise e, s') -> bind m k s = (Raise e, s').
Proof. intros H. unfold bind. now rewrite H. Qed.

Lemma bind_inv {A B} (m : M S A) (k : A -> M S B) s r s' :
  bind m k s = (r, s') ->
  (exists a s1, m s = (Ok a, s1) /\ k a s1 = (r, s')) \/
  (exists e, m s = (Raise e, s') /\ r = Raise e).
Proof.
  unfold bind. destruct (m s) as [[a|e] s1]; intros H.
  - left. eauto.
  - right. exists e. split; congruence.
Qed.

(** A handler that logs and re-raises hands on the exception the body
    raised. *)
Lemma try_except_reraise {A} (body : M S A) (log : exn -> M S unit) s e s1 :
  body s = (Raise e, s1) ->
  (forall s2, exists s3, log e s2 = (Ok tt, s3)) ->
  exists s', try_except body (fun e => log e ;; raise e) s = (Raise e, s').
Proof.
  intros Hb Hl. unfold try_except. rewrite Hb.
  destruct (isinstance e Exception); [|eauto].
  destruct (Hl s1) as [s3 H3]. exists s3.
  unfold bind. now rewrite H3.
Qed.

Section Preserves.
Variable R : S -> S -> Prop.
Hypothesis R_refl : forall s, R s s.
Hypothesis R_trans : forall s1 s2 s3, R s1 s2 -> R s2 s3 -> R s1 s3.

Lemma preserves_ret {A} (a : A) : preserves R (ret a).
Proof. intros s r s' [= _ <-]. apply R_refl. Qed.

Lemma preserves_raise {A} e : preserves R (@raise S A e).
Proof. intros s r s' [= _ <-]. apply R_refl. Qed.

Lemma preserves_gets {A} (f : S -> A) : preserves R (gets f).
Proof. intros s r s' [= _ <-]. apply R_refl. Qed.

Lemma preserves_lift_result {A} (x : result A) : preserves R (lift_result x).
Proof. intros s r s' [= _ <-]. apply R_refl. Qed.

Lemma preserves_bind {A B} (m : M S A) (k : A -> M S B) :
  preserves R m -> (forall a, preserves R (k a)) -> preserves R (bind m k).
Proof.
  intros Hm Hk s r s' H.
  destruct (bind_inv _ _ _ _ _ H) as [(a & s1 & H1 & H2)|(e & H1 & _)].
  - eapply R_trans; [eapply Hm | eapply Hk]; eauto.
  - eapply Hm; eauto.
Qed.

Lemma preserves_try_except {A} (body : M S A) (handler : exn -> M S A) :
  preserves R body -> (forall e, preserves R (handler e)) ->
  preserves R (try_except body handler).
Proof.
  intros Hb Hh s r s'. unfold try_except.
  destruct (body s) as [[a|e] s1] eqn:E.
  - intros [= <- <-]. eapply Hb; eauto.
  - destruct (isinstance e Exception).
    + intros H. eapply R_trans; [eapply Hb | eapply Hh]; eauto.
    + intros [= <- <-]. eapply Hb; eauto.
Qed.

Lemma preserves_if {A} (b : bool) (m1 m2 : M S A) :
  preserves R m1 -> preserves R m2 -> preserves R (if b then m1 else m2).
Proof. now destruct b. Qed.

End Preserves.
End Computations.

(** ** The configuration resolver *)

Section Resolver.
Context {C : Collab}.

Lemma strategies_spec m :
  m ∈ strategies <->
  m = "intersection" \/ m = "union" \/ m = "contrast"
  \/ m = "intersection_union_mapper".
Proof.
  unfold strategies. rewrite !elem_of_cons, elem_of_nil. tauto.
Qed.

Lemma update_groups_dom user : forall groups r,
  update_groups groups user = Ok r -> dom r = dom groups.
Proof.
  induction user as [|[key grp] rest IH]; intros groups r; simpl.
  - now intros [= <-].
  - destruct (groups !! key) as [d|] eqn:E; [|discriminate].
    intros H. rewrite (IH _ _ H), dom_insert_L.
    apply elem_of_dom_2 in E. apply subseteq_union_1_L.
    now apply singleton_subseteq_l.
Qed.

Lemma lookup_same_dom (g1 g2 : gmap string dict) k :
  dom g1 = dom g2 -> g1 !! k = None <-> g2 !! k = None.
Proof. intros H. rewrite <- !not_elem_of_dom, H. tauto. Qed.

(** The loop stops at the first group name the defaults do not have. *)
Lemma update_groups_unknown user : forall groups k,
  dom groups = dom default_umap_params ->
  first_unknown_group user = Some k ->
  update_groups groups user = Raise (InvalidConfigKey k).
Proof.
  unfold first_unknown_group.
  induction user as [|[key grp] rest IH]; intros groups k Hd; simpl; [discriminate|].
  destruct (bool_decide_reflect (default_umap_params !! key = None)) as [Hn|Hn]; simpl.
  - intros [= <-].
    apply (proj2 (lookup_same_dom groups default_umap_params key Hd)) in Hn.
    now rewrite Hn.
  - intros H. destruct (groups !! key) as [d|] eqn:E.
    + apply IH; [|done]. rewrite dom_insert_L, <- Hd.
      apply elem_of_dom_2 in E. apply subseteq_union_1_L.
      now apply singleton_subseteq_l.
    + apply (proj1 (lookup_same_dom groups default_umap_params key Hd)) in E.
      contradiction.
Qed.

Lemma first_unknown_group_Some user k :
  first_unknown_group user = Some k ->
  k ∈ user.*1 /\ default_umap_params !! k = None.
Proof.
  unfold first_unknown_group.
  destruct (List.find _ user) as [[k' g]|] eqn:E; [|discriminate].
  intros [= <-]. apply find_some in E as [Hin Hb].
  apply bool_decide_eq_true in Hb. split; [|done].
  apply list_elem_of_In in Hin. apply list_elem_of_fmap. now exists (k', g).
Qed.

Lemma first_unknown_group_None user :
  first_unknown_group user = None <->
  forall k, k ∈ user.*1 -> is_Some (default_umap_params !! k).
Proof.
  unfold first_unknown_group. split.
  - intros H k Hk. destruct (List.find _ user) eqn:E; [discriminate|].
    apply list_elem_of_fmap in Hk as ([k' g] & -> & Hin).
    apply list_elem_of_In in Hin.
    pose proof (find_none _ _ E _ Hin) as Hb. simpl in Hb.
    apply bool_decide_eq_false in Hb.
    now apply not_eq_None_Some.
  - intros H. destruct (List.find _ user) as [[k g]|] eqn:E; [|done].
    apply find_some in E as [Hin Hb]. apply bool_decide_eq_true in Hb. simpl in Hb.
    destruct (H k) as [x Hx]; [|congruence].
    apply list_elem_of_In in Hin. apply list_elem_of_fmap. now exists (k, g).
Qed.

(** With distinct, known group names, every group of the result is the
    default group updated with the user's group of that name, if any. *)
Lemma update_groups_merge user : forall groups r,
  NoDup user.*1 ->
  update_groups groups user = Ok r ->
  forall g, r !! g =
    (fun d => match (list_to_map user : gmap string dict) !! g with
              | Some u => dict_update d u
              | None => d
              end) <$> groups !! g.
Proof.
  induction user as [|[key grp] rest IH]; intros groups r Hnd; simpl.
  - intros [= <-] g. rewrite lookup_empty. now destruct (groups !! g).
  - destruct (groups !! key) as [d|] eqn:E; [|discriminate].
    intros H g. rewrite fmap_cons in Hnd. simpl in Hnd.
    apply NoDup_cons in Hnd as [Hnotin Hnd].
    rewrite (IH _ _ Hnd H g).
    destruct (decide (key = g)) as [->|Hne].
    + rewrite !lookup_insert_eq, E. simpl.
      apply (not_elem_of_list_to_map_1 (M := gmap string)) in Hnotin.
      now rewrite Hnotin.
    + now rewrite !lookup_insert_ne.
Qed.

(** With known group names only, the loop runs to its end. *)
Lemma update_groups_known user : forall groups,
  dom groups = dom default_umap_params ->
  first_unknown_group user = None ->
  exists r, update_groups groups user = Ok r.
Proof.
  induction user as [|[key grp] rest IH]; intros groups Hd Hn; simpl; [eauto|].
  unfold first_unknown_group in Hn. simpl in Hn.
  destruct (bool_decide_reflect (default_umap_params !! key = None)) as [Hk|Hk];
    [discriminate|].
  destruct (groups !! key) as [d|] eqn:E.
  - apply IH; [|exact Hn].
    rewrite dom_insert_L, <- Hd. apply elem_of_dom_2 in E.
    apply subseteq_union_1_L. now apply singleton_subseteq_l.
  - apply (proj1 (lookup_same_dom groups default_umap_params key Hd)) in E.
    contradiction.
Qed.

(** What a successful construction leaves in the instance. *)
Lemma init_inv rs m v up hp kw p d p' :
  __init__ rs m v up hp kw p = (Ok d, p') ->
  m ∈ strategies
  /\ (if truthy_groups up
      then update_groups default_umap_params (default [] up)
      else Ok default_umap_params) = Ok (umap_params d)
  /\ d = Build_DenseClus rs m (umap_params d)
           (if truthy_dict hp then default ∅ hp else default_hdbscan_params)
           v kw None None None None None None.
Proof.
  unfold __init__.
  destruct (bool_decide_reflect (m ∈ strategies)) as [Hm|Hm]; simpl;
    [|discriminate].
  intros H. split; [done|].
  apply bind_inv in H as [(ups & p1 & H1 & H)|(e & _ & [=])].
  apply bind_inv in H as [(? & p2 & _ & H)|(e & _ & [=])].
  apply bind_inv in H as [(? & p3 & _ & H)|(e & _ & [=])].
  injection H as <- _. simpl. split; [|done].
  destruct (truthy_groups up).
  - unfold lift_result in H1. now injection H1 as -> _.
  - now injection H1 as -> _.
Qed.

Lemma update_groups_raise_inv user : forall groups e,
  update_groups groups user = Raise e -> exists k, e = InvalidConfigKey k.
Proof.
  induction user as [|[key grp] rest IH]; intros groups e; simpl; [discriminate|].
  destruct (groups !! key); [apply IH|].
  intros [= <-]. now exists key.
Qed.

Lemma InvalidConfigKey_not_InvalidStrategy k :
  InvalidConfigKey k <> InvalidStrategy.
Proof. discriminate. Qed.

Lemma init_invalid_strategy rs m v up hp kw p :
  m ∉ strategies -> __init__ rs m v up hp kw p = (Raise InvalidStrategy, p).
Proof.
  intros Hm. unfold __init__.
  now rewrite (bool_decide_eq_false_2 _ Hm).
Qed.

Lemma init_unknown_group rs m v user hp kw p k :
  m ∈ strategies -> first_unknown_group user = Some k ->
  __init__ rs m v (Some user) hp kw p = (Raise (InvalidConfigKey k), p).
Proof.
  intros Hm Hk. unfold __init__.
  rewrite (bool_decide_eq_true_2 _ Hm). simpl.
  destruct user as [|kv rest]; [discriminate|].
  cbn [truthy_groups default].
  erewrite bind_raise; [reflexivity|].
  unfold lift_result. now rewrite (update_groups_unknown _ _ k).
Qed.

(** Where an exception of the constructor comes from. *)
Lemma init_raise_inv rs m v up hp kw p e p' :
  __init__ rs m v up hp kw p = (Raise e, p') ->
  ((m ∉ strategies) /\ e = InvalidStrategy /\ p' = p)
  \/ ((m ∈ strategies) /\ (exists k, e = InvalidConfigKey k) /\ p' = p)
  \/ ((m ∈ strategies) /\
      exists seed w, rs = Some seed /\ fst (np_random_seed seed w) = Raise e).
Proof.
  unfold __init__.
  destruct (bool_decide_reflect (m ∈ strategies)) as [Hm|Hm]; simpl.
  2:{ intros [= <- <-]. now left. }
  intros H. right.
  apply bind_inv in H as [(ups & p1 & H1 & H)|(e' & H1 & [= <-])].
  2:{ left. split; [done|]. destruct (truthy_groups up).
      - unfold lift_result in H1. injection H1 as H1 ->.
        split; [|done]. eapply update_groups_raise_inv; eauto.
      - discriminate. }
  right. split; [done|].
  apply bind_inv in H as [(? & p2 & _ & H)|(e' & H2 & [= <-])].
  2:{ destruct v; [discriminate|].
      apply bind_inv in H2 as [(? & ? & _ & [=])|(? & [=] & _)]. }
  apply bind_inv in H as [(? & p3 & _ & [=])|(e' & H3 & [= <-])].
  destruct rs as [seed|]; [|discriminate].
  exists seed, (world p2). split; [done|].
  unfold call in H3. destruct (np_random_seed seed (world p2)) as [r w'].
  now injection H3 as ->.
Qed.

(** C5. A strategy name outside the four recognised ones makes the
    constructor raise the invalid-strategy [ValueError] at once: nothing
    of the process has changed and no collaborator has been called.  For
    a name among the four the constructor does not raise it (numpy's
    seeding, the only library call of the constructor, not raising that
    very exception). *)
Theorem strategy_checked_at_construction rs m v up hp kw p :
  (m ∉ strategies -> __init__ rs m v up hp kw p = (Raise InvalidStrategy, p))
  /\ (m ∈ strategies ->
      (forall seed w, fst (np_random_seed seed w) <> Raise InvalidStrategy) ->
      fst (__init__ rs m v up hp kw p) <> Raise InvalidStrategy).
Proof.
  split; [apply init_invalid_strategy|].
  intros Hm Hseed.
  destruct (__init__ rs m v up hp kw p) as [[d|e] p'] eqn:E; [discriminate|].
  simpl. intros [= ->].
  apply init_raise_inv in E as [(Hn & _)|[(_ & (k & Hk) & _)|(_ & seed & w & _ & Hs)]].
  - contradiction.
  - now apply (InvalidConfigKey_not_InvalidStrategy k).
  - now apply (Hseed seed w).
Qed.

(** C6. With a recognised strategy, a user mapping that contains a group
    name outside categorical, numerical and combined makes the
    constructor raise the invalid-key [ValueError] for the first such
    name, with the process untouched and no instance built.  When all
    names are recognised (and distinct, as the keys of a mapping are),
    each group of the instance is the default group updated by the
    user's: the user's entries, and the default entries the user did not
    give. *)
Theorem unknown_group_rejected_known_groups_merged
    rs m v (user : list (string * dict)) hp kw p :
  m ∈ strategies ->
  (forall k, k ∈ user.*1 -> default_umap_params !! k = None ->
     exists k', first_unknown_group user = Some k'
       /\ k' ∈ user.*1 /\ default_umap_params !! k' = None
       /\ __init__ rs m v (Some user) hp kw p = (Raise (InvalidConfigKey k'), p))
  /\ (NoDup user.*1 ->
      (forall k, k ∈ user.*1 -> is_Some (default_umap_params !! k)) ->
      forall d p', __init__ rs m v (Some user) hp kw p = (Ok d, p') ->
      forall g dg, default_umap_params !! g = Some dg ->
      exists merged, umap_params d !! g = Some merged /\
        forall x, merged !! x =
          match (list_to_map user : gmap string dict) !! g ≫= (.!! x) with
          | Some val => Some val
          | None => dg !! x
          end).
Proof.
  intros Hm. split.
  - intros k Hk Hn.
    destruct (first_unknown_group user) as [k'|] eqn:E.
    + exists k'. destruct (first_unknown_group_Some _ _ E) as [H1 H2].
      repeat split; try done. now apply init_unknown_group.
    + destruct (proj1 (first_unknown_group_None user) E k Hk) as [x Hx].
      congruence.
  - intros Hnd Hknown d p' H g dg Hg.
    apply init_inv in H as (_ & Hups & _).
    assert (Hu : update_groups default_umap_params user = Ok (umap_params d)).
    { destruct user; simpl in *; [now injection Hups as <-|done]. }
    rewrite (update_groups_merge _ _ _ Hnd Hu g), Hg. simpl.
    eexists; split; [reflexivity|]. intros x.
    destruct (list_to_map user !! g) as [u|] eqn:Eu; simpl.
    + unfold dict_update. rewrite lookup_union.
      destruct (u !! x), (dg !! x); reflexivity.
    + reflexivity.
Qed.

End Resolver.

(** ** Running the methods *)

Section Methods.
Context {C : Collab}.

Lemma try_except_inv {S A} (body : M S A) (handler : exn -> M S A) s r s' :
  try_except body handler s = (r, s') ->
  (body s = (r, s') /\
     (forall e, r = Raise e -> isinstance e Exception = false))
  \/ (exists e s1, body s = (Raise e, s1) /\ isinstance e Exception = true
        /\ handler e s1 = (r, s')).
Proof.
  unfold try_except. destruct (body s) as [[a|e] s1].
  - intros [= <- <-]. left. split; [done|]. discriminate.
  - destruct (isinstance e Exception) eqn:E.
    + intros H. right. exists e, s1. eauto.
    + intros [= <- <-]. left. split; [done|]. now intros ? [= <-].
Qed.

Lemma global_log_inv l msg s r s' :
  global (logger_log l msg) s = (r, s') ->
  r = Ok tt /\
  s' = St (self s)
         (set_handled
            (if Z.leb (logger_level (glob s)) l
             then handled (glob s) ++ [(l, msg)] else handled (glob s))
            (glob s)).
Proof.
  unfold global, zoom, logger_log, modify. simpl.
  intros [= <- <-]. split; [done|]. f_equal.
  destruct (glob s); simpl. now destruct (Z.leb _ _).
Qed.

Lemma global_call_inv {A} ev (f : World -> result A * World) s r s' :
  global (call ev f) s = (r, s') ->
  exists w', f (world (glob s)) = (r, w') /\
    s' = St (self s) (set_world w' (set_calls (calls (glob s) ++ [ev]) (glob s))).
Proof.
  unfold global, zoom, call. destruct (f (world (glob s))) as [r0 w'].
  intros [= <- <-]. now exists w'.
Qed.

Lemma global_call_pure_inv {A} ev (x : result A) s r s' :
  global (call_pure ev x) s = (r, s') ->
  r = x /\ s' = St (self s) (set_calls (calls (glob s) ++ [ev]) (glob s)).
Proof. unfold global, zoom, call_pure. now intros [= <- <-]. Qed.

End Methods.

(** Symbolic execution of a run [m s = (r, s')] of the hypotheses: one
    statement at a time, one goal for each way the run can go. *)
Ltac exec_step :=
  match goal with
  | H : bind _ _ _ = _ |- _ =>
      apply bind_inv in H as [(? & ? & ? & H)|(? & H & ?)]; simplify_eq
  | H : try_except _ _ _ = _ |- _ =>
      apply try_except_inv in H as [[H ?]|(? & ? & ? & ? & H)]
  | H : ret _ _ = _ |- _ => unfold ret in H; simplify_eq
  | H : raise _ _ = _ |- _ => unfold raise in H; simplify_eq
  | H : gets _ _ = _ |- _ => unfold gets in H; simplify_eq
  | H : lift_result _ _ = _ |- _ => unfold lift_result in H; simplify_eq
  | H : getattr _ _ _ = _ |- _ => unfold getattr in H
  | H : (_, _) = (_, _) |- _ => simplify_eq
  | H : match ?x with Some _ => _ | None => _ end = (_, _), E : ?x = _ |- _ =>
      rewrite E in H
  | H : match ?x with Some _ => _ | None => _ end = (_, _) |- _ =>
      destruct x eqn:?
  | H : setattr _ _ = _ |- _ => unfold setattr, modify in H; simplify_eq
  | H : global (logger_info _) _ = _ |- _ =>
      apply global_log_inv in H as [? ?]; simplify_eq
  | H : global (logger_error _) _ = _ |- _ =>
      apply global_log_inv in H as [? ?]; simplify_eq
  | H : global (call _ _) _ = _ |- _ =>
      apply global_call_inv in H as (? & ? & ?); simplify_eq
  | H : global (call_pure _ _) _ = _ |- _ =>
      apply global_call_pure_inv in H as [? ?]; simplify_eq
  | H : global (extract_categorical _ _) _ = _ |- _ =>
      unfold extract_categorical in H
  | H : global (extract_numerical _ _) _ = _ |- _ =>
      unfold extract_numerical in H
  | H : model_op _ _ _ _ = _ |- _ => unfold model_op in H
  | H : matrix_op _ _ _ _ = _ |- _ => unfold matrix_op in H
  | H : (if ?b then _ else _) _ = (_, _), E : ?b = _ |- _ => rewrite E in H
  | H : (if ?b then _ else _) _ = (_, _) |- _ => destruct b eqn:?
  end.

Ltac proc_simpl :=
  cbn [calls world handled warnings_warn shown_warnings logger_level
       set_handled set_world set_calls set_logger_level set_warnings_warn
       set_shown_warnings glob self app
       random_state umap_combine_method umap_params hdbscan_params verbose
       kwargs categorical_ numerical_ categorical_umap_ numerical_umap_
       mapper_ hdbscan_ set_categorical_ set_numerical_
       set_categorical_umap_ set_numerical_umap_ set_mapper_ set_hdbscan_]
    in *.

Ltac exec := repeat (exec_step; proc_simpl).

Lemma snoc_added {A} (l l' evs : list A) e :
  l' = l ++ evs -> l' ++ [e] = l ++ (evs ++ [e]).
Proof. intros ->. now rewrite app_assoc. Qed.

Lemma none_added {A} (l : list A) : l = l ++ [].
Proof. now rewrite app_nil_r. Qed.

(** The events a run added, read off the final trace. *)
Ltac events_eq :=
  lazymatch goal with
  | |- _ ++ [_] = _ ++ _ => apply snoc_added; events_eq
  | |- _ = _ ++ _ => apply none_added
  end.

Section Invariants.
Context {C : Collab}.

Lemma adds_only_refl P p : adds_only P p p.
Proof. exists []. now rewrite app_nil_r. Qed.

Lemma adds_only_trans P p1 p2 p3 :
  adds_only P p1 p2 -> adds_only P p2 p3 -> adds_only P p1 p3.
Proof.
  intros (e1 & H1 & F1) (e2 & H2 & F2). exists (e1 ++ e2).
  split; [now rewrite H2, H1, app_assoc|now apply Forall_app].
Qed.

Lemma call_kwargs_lookup f explicit extra kw k :
  call_kwargs f explicit extra = Ok kw ->
  kw !! k = match (list_to_map explicit : dict) !! k with
            | Some x => Some x
            | None => extra !! k
            end.
Proof.
  unfold call_kwargs. destruct (List.find _ explicit); [discriminate|].
  intros [= <-]. rewrite lookup_union.
  now destruct (list_to_map explicit !! k), (extra !! k).
Qed.

Lemma call_kwargs_Ok_inv f explicit extra kw :
  call_kwargs f explicit extra = Ok kw ->
  kw = list_to_map explicit ∪ extra
  /\ forall k v, (k, v) ∈ explicit -> extra !! k = None.
Proof.
  unfold call_kwargs. destruct (List.find _ explicit) eqn:E; [discriminate|].
  intros [= <-]. split; [done|]. intros k v Hin.
  apply list_elem_of_In in Hin. pose proof (find_none _ _ E _ Hin) as Hb.
  simpl in Hb. apply bool_decide_eq_false in Hb.
  now apply eq_None_not_Some.
Qed.

Section Step.
Variables (rs : option Z) (hp : dict).

Lemma method_step_refl s : method_step rs hp s s.
Proof.
  intros _ _. split; [done|]. exists (handled (glob s)), (world (glob s)), [].
  rewrite app_nil_r. split; [now destruct (glob s)|constructor].
Qed.

Lemma method_step_trans s1 s2 s3 :
  method_step rs hp s1 s2 -> method_step rs hp s2 s3 -> method_step rs hp s1 s3.
Proof.
  intros H12 H23 Hr Hh.
  destruct (H12 Hr Hh) as (Hc & h & w & evs & Hg & Hf).
  assert (Hr2 : random_state (self s2) = rs) by (injection Hc; congruence).
  assert (Hh2 : hdbscan_params (self s2) = hp) by (injection Hc; congruence).
  destruct (H23 Hr2 Hh2) as (Hc' & h' & w' & evs' & Hg' & Hf').
  split; [congruence|]. exists h', w', (evs ++ evs').
  rewrite Hg', Hg. simpl. rewrite app_assoc. split; [done|].
  now apply Forall_app.
Qed.

End Step.
End Invariants.

Lemma proc_stepped {C : Collab} l h a b w (c c0 evs : list event) :
  c = c0 ++ evs -> Proc l h a b w c = Proc l h a b w (c0 ++ evs).
Proof. now intros ->. Qed.

(** A run that changed the process in the way of [method_step]. *)
Ltac stepped :=
  split; [reflexivity|];
  eexists _, _, _; split;
  [ apply proc_stepped; events_eq
  | cbn [app]; repeat first [apply Forall_nil_2 | apply Forall_cons_2] ].

Ltac start_step :=
  intros [[? ? ? ? ? ? ? ? ? ? ? ?] [? ? ? ? ? ?]] ? ? ?; intros ? ?;
  proc_simpl; exec.

Section MethodSteps.
Context {C : Collab}.

Lemma configured_hdbscan rs hp kw X :
  call_kwargs "HDBSCAN" [("prediction_data", VBool true)] hp = Ok kw ->
  as_configured rs hp (EvHdbscanFit kw X).
Proof.
  intros H. split.
  - rewrite (call_kwargs_lookup _ _ _ _ _ H).
    now rewrite list_to_map_cons, lookup_insert_eq.
  - intros k Hk. rewrite (call_kwargs_lookup _ _ _ _ _ H).
    rewrite list_to_map_cons, lookup_insert_ne by done.
    now rewrite list_to_map_nil, lookup_empty.
Qed.

Lemma configured_umap rs hp fname more grp kw X :
  call_kwargs fname
    (("random_state", rs_value rs) :: ("n_jobs", n_jobs rs) :: more) grp = Ok kw ->
  as_configured rs hp (EvUmapFit kw X).
Proof.
  intros H. split; rewrite (call_kwargs_lookup _ _ _ _ _ H).
  - now rewrite list_to_map_cons, lookup_insert_eq.
  - rewrite list_to_map_cons, lookup_insert_ne by done.
    now rewrite list_to_map_cons, lookup_insert_eq.
Qed.

Ltac configured :=
  stepped;
  first [ exact I
        | eapply configured_hdbscan; eassumption
        | eapply configured_umap; eassumption ].

Variables (rs : option Z) (hp : dict).

Lemma step_fit_hdbscan : preserves (method_step rs hp) _fit_hdbscan.
Proof. unfold _fit_hdbscan. start_step; configured. Qed.

Lemma step_fit_categorical : preserves (method_step rs hp) _fit_categorical.
Proof. unfold _fit_categorical. start_step; configured. Qed.

Lemma step_fit_numerical : preserves (method_step rs hp) _fit_numerical.
Proof. unfold _fit_numerical. start_step; configured. Qed.

Lemma step_umap_embeddings : preserves (method_step rs hp) _umap_embeddings.
Proof. unfold _umap_embeddings. start_step; configured. Qed.

Lemma step_predict_base df : preserves (method_step rs hp) (_predict_base df).
Proof. unfold _predict_base. start_step; configured. Qed.

Lemma step_score : preserves (method_step rs hp) score.
Proof. unfold score. start_step; configured. Qed.

Lemma step_bind {A B} (m : M st A) (k : A -> M st B) :
  preserves (method_step rs hp) m ->
  (forall a, preserves (method_step rs hp) (k a)) ->
  preserves (method_step rs hp) (bind m k).
Proof.
  apply preserves_bind. intros s1 s2 s3. apply method_step_trans.
Qed.

Lemma step_log l msg : preserves (method_step rs hp) (global (logger_log l msg)).
Proof.
  intros s r s' H. apply global_log_inv in H as [_ ->].
  destruct s as [d [? ? ? ? ? ?]]. intros _ _. proc_simpl. stepped.
Qed.

Lemma step_gets {A} (f : st -> A) : preserves (method_step rs hp) (gets f).
Proof. apply preserves_gets, method_step_refl. Qed.

Lemma step_raise {A} e : preserves (method_step rs hp) (@raise st A e).
Proof. apply preserves_raise, method_step_refl. Qed.

Lemma step_setattr upd :
  (forall d, config (upd d) = config d) ->
  preserves (method_step rs hp) (setattr upd).
Proof.
  intros Hupd [d [? ? ? ? ? ?]] r s' H _ _. exec.
  split; [apply Hupd|]. eexists _, _, []. rewrite app_nil_r.
  split; [reflexivity|constructor].
Qed.

Lemma config_set_categorical_ x d : config (set_categorical_ x d) = config d.
Proof. now destruct d. Qed.

Lemma config_set_numerical_ x d : config (set_numerical_ x d) = config d.
Proof. now destruct d. Qed.

Lemma step_ret {A} (a : A) : preserves (method_step rs hp) (ret a).
Proof. apply preserves_ret, method_step_refl. Qed.

Lemma step_predict df : preserves (method_step rs hp) (predict df).
Proof.
  unfold predict. apply step_bind; [apply step_predict_base|].
  intros a. apply step_ret.
Qed.

Lemma step_predict_proba df : preserves (method_step rs hp) (predict_proba df).
Proof.
  unfold predict_proba. apply step_bind; [apply step_predict_base|].
  intros a. apply step_ret.
Qed.

Lemma step_extract_categorical df kw :
  preserves (method_step rs hp) (global (extract_categorical df kw)).
Proof. start_step; configured. Qed.

Lemma step_extract_numerical df kw :
  preserves (method_step rs hp) (global (extract_numerical df kw)).
Proof. start_step; configured. Qed.

Lemma step_fit df : preserves (method_step rs hp) (fit df).
Proof.
  unfold fit. destruct (negb (isinstance_DataFrame df)); [apply step_raise|].
  repeat first
    [ apply step_fit_categorical | apply step_fit_numerical
    | apply step_umap_embeddings | apply step_fit_hdbscan
    | apply step_log | apply step_gets
    | apply step_extract_categorical | apply step_extract_numerical
    | apply step_setattr; [apply config_set_categorical_]
    | apply step_setattr; [apply config_set_numerical_]
    | apply step_bind; [|intros ?] ].
Qed.

End MethodSteps.

(** ** Side effects of the constructor, and what the methods leave alone *)

Section ProcessWide.
Context {C : Collab}.




Lemma method_step_adds_only rs hp s s' :
  random_state (self s) = rs -> hdbscan_params (self s) = hp ->
  method_step rs hp s s' ->
  adds_only (as_configured rs hp) (glob s) (glob s').
Proof.
  intros Hr Hh H. destruct (H Hr Hh) as (_ & h & w & evs & -> & Hf).
  now exists evs.
Qed.

(** The process after a construction that passes the two validations:
    the logger level and [warnings.warn] are set as [verbose] says, then
    numpy is seeded, or the missing seed is logged. *)
Lemma init_valid_run rs m v up hp kw p :
  m ∈ strategies ->
  (forall user, up = Some user -> first_unknown_group user = None) ->
  snd (__init__ rs m v up hp kw p) =
    match rs with
    | Some seed =>
        set_world
          (snd (np_random_seed seed (world p)))
          (set_calls (calls p ++ [EvSeed seed])
             (if v then set_logger_level DEBUG p
              else set_warnings_warn warn_noop (set_logger_level ERROR p)))
    | None =>
        snd (logger_info "No random seed passed, running UMAP in Numba, parallel"
               (if v then set_logger_level DEBUG p
                else set_warnings_warn warn_noop (set_logger_level ERROR p)))
    end.
Proof.
  intros Hm Hup. unfold __init__.
  rewrite (bool_decide_eq_true_2 _ Hm). simpl.
  assert (Hg : exists ups,
             (if truthy_groups up
              then lift_result
                     (update_groups default_umap_params (default [] up))
              else ret default_umap_params) p = (Ok ups, p)).
  { destruct up as [[|kv user]|]; cbn [truthy_groups default]; eauto.
    destruct (update_groups_known (kv :: user) default_umap_params)
      as [g Hgr]; [done|now apply Hup|].
    exists g. unfold lift_result.
    change (id (kv :: user)) with (kv :: user). now rewrite Hgr. }
  destruct Hg as [ups Hg]. rewrite (bind_ok _ _ _ _ _ Hg).
  destruct p as [l h f sw w c].
  destruct v, rs as [seed|]; cbn; unfold bind, call; cbn;
    try destruct (np_random_seed seed w) as [[[]|e] w']; reflexivity.
Qed.





Lemma init_valid_proc rs m v up hp kw p :
  m ∈ strategies ->
  (forall user, up = Some user -> first_unknown_group user = None) ->
  let p' := snd (__init__ rs m v up hp kw p) in
  logger_level p' = (if v then DEBUG else ERROR)
  /\ warnings_warn p' = (if v then warnings_warn p else warn_noop)
  /\ match rs with
     | Some seed =>
         calls p' = calls p ++ [EvSeed seed]
         /\ world p' = snd (np_random_seed seed (world p))
     | None => calls p' = calls p /\ world p' = world p
     end.
Proof.
  intros Hm Hup p'. subst p'. rewrite init_valid_run by done.
  destruct p as [l h f sw w c].
  destruct v, rs as [seed|]; cbn; try destruct (Z.leb _ _); auto.
Qed.


End ProcessWide.

(** ** Clustering parameters, and the input contract *)

Section Parameters.
Context {C : Collab}.

(** Whatever the user's groups, every default entry of a group is still
    an entry of that group after the loop. *)
Lemma update_groups_keeps user : forall groups r,
  update_groups groups user = Ok r ->
  forall g dg, groups !! g = Some dg ->
  exists merged, r !! g = Some merged /\ dom dg ⊆ dom merged.
Proof.
  induction user as [|[key grp] rest IH]; intros groups r; simpl.
  - intros [= <-] g dg Hg. now exists dg.
  - destruct (groups !! key) as [d|] eqn:E; [|discriminate].
    intros H g dg Hg.
    destruct (decide (key = g)) as [->|Hne].
    + destruct (IH _ _ H g (dict_update d grp)) as (merged & Hm & Hsub).
      { apply lookup_insert_eq. }
      exists merged. split; [done|].
      assert (d = dg) as -> by congruence.
      etrans; [|exact Hsub]. unfold dict_update. rewrite dom_union_L.
      apply union_subseteq_r.
    + apply (IH _ _ H). now rewrite lookup_insert_ne.
Qed.

Lemma as_configured_prediction_data rs hp ev :
  as_configured rs hp ev -> with_prediction_data ev.
Proof. destruct ev; simpl; tauto. Qed.

(** C9. A non-empty user mapping of clustering parameters becomes the
    instance's clustering parameters as it is: a default it does not
    give is absent, where the embedding groups keep every default entry.
    With no mapping, or an empty one, the defaults are used: minimum
    cluster size 100, minimum samples 15, spanning tree, euclidean.  And
    every cluster fit that [fit] requests, on any instance, is given
    [prediction_data=True]. *)
Theorem cluster_parameters_replace_the_defaults
    rs m v up (hp : dict) kw p d p' :
  hp <> ∅ ->
  __init__ rs m v up (Some hp) kw p = (Ok d, p') ->
  hdbscan_params d = hp
  /\ (forall k, hp !! k = None -> hdbscan_params d !! k = None)
  /\ (forall g dg, default_umap_params !! g = Some dg ->
        exists merged, umap_params d !! g = Some merged /\ dom dg ⊆ dom merged)
  /\ (forall hp0 d0 p0, hp0 = None \/ hp0 = Some ∅ ->
        __init__ rs m v up hp0 kw p = (Ok d0, p0) ->
        hdbscan_params d0 = default_hdbscan_params
        /\ hdbscan_params d0 !! "min_cluster_size" = Some (VInt 100)
        /\ hdbscan_params d0 !! "min_samples" = Some (VInt 15)
        /\ hdbscan_params d0 !! "gen_min_span_tree" = Some (VBool true)
        /\ hdbscan_params d0 !! "metric" = Some (VStr "euclidean"))
  /\ (forall df s r s', fit df s = (r, s') ->
        adds_only with_prediction_data (glob s) (glob s')).
Proof.
  intros Hne H.
  destruct (init_inv _ _ _ _ _ _ _ _ _ H) as (_ & Hups & Hd).
  assert (Hhp : hdbscan_params d = hp).
  { rewrite Hd. simpl. now rewrite (bool_decide_eq_false_2 _ Hne). }
  split; [exact Hhp|]. split; [intros k Hk; now rewrite Hhp|].
  split; [|split].
  - intros g dg Hg. destruct (truthy_groups up).
    + eapply update_groups_keeps; eauto.
    + injection Hups as <-. now exists dg.
  - intros hp0 d0 p0 Hhp0 H0.
    destruct (init_inv _ _ _ _ _ _ _ _ _ H0) as (_ & _ & Hd0).
    assert (Hdef : hdbscan_params d0 = default_hdbscan_params).
    { rewrite Hd0. destruct Hhp0 as [->| ->]; reflexivity. }
    rewrite Hdef. repeat split; reflexivity.
  - intros df s r s' Hfit.
    pose proof (step_fit (random_state (self s)) (hdbscan_params (self s))
                  df s r s' Hfit) as Hstep.
    apply method_step_adds_only in Hstep; [|done|done].
    destruct Hstep as (evs & Hc & Hf). exists evs. split; [done|].
    eapply Forall_impl; [exact Hf|].
    intros ev. apply as_configured_prediction_data.
Qed.

(** C7. [fit] on an argument that is not a DataFrame raises [TypeError]
    and leaves the instance and the process exactly as they were: no
    attribute is set, nothing is logged, no collaborator is called.
    [predict] and [predict_proba] hand the argument to the feature
    extraction, whose [TypeError] they let through; the instance is not
    changed. *)
Theorem non_table_argument_is_a_type_error (v : value) (s : st) :
  fit (NotDataFrame v) s = (Raise (Exn TypeError "Requires DataFrame as input"), s)
  /\ (exists e s', predict (NotDataFrame v) s = (Raise e, s')
        /\ isinstance e TypeError = true /\ self s' = self s)
  /\ (exists e s', predict_proba (NotDataFrame v) s = (Raise e, s')
        /\ isinstance e TypeError = true /\ self s' = self s).
Proof.
  split; [reflexivity|].
  split; eexists (Exn TypeError not_a_table), _;
    (split; [reflexivity|]); split; reflexivity.
Qed.

End Parameters.

(** ** Before a fit has completed *)

Section Unfitted.
Context {C : Collab}.

Lemma predict_base_keeps_self df s r s' :
  _predict_base df s = (r, s') -> self s' = self s.
Proof.
  unfold _predict_base. destruct s as [d p]. intros H. exec; reflexivity.
Qed.

Lemma unfitted_predict_base_raises df s r s' :
  hdbscan_ (self s) = None -> _predict_base df s = (r, s') ->
  exists e, r = Raise e.
Proof.
  unfold _predict_base. destruct s as [d p]. intros Hn H. simpl in Hn.
  exec; eauto; congruence.
Qed.

Lemma fresh_predict_base t Xc Xn s :
  categorical_umap_ (self s) = None ->
  split_categorical t (kwargs (self s)) = Ok Xc ->
  split_numerical t (kwargs (self s)) = Ok Xn ->
  fst (_predict_base (DataFrame t) s) = Raise (missing "categorical_umap_").
Proof.
  intros Hc H1 H2.
  destruct (_predict_base (DataFrame t) s) as [r s'] eqn:E. simpl.
  unfold _predict_base in E. destruct s as [d p]. simpl in *.
  exec; first [reflexivity | congruence].
Qed.

Lemma step_keeps_hdbscan_categorical s r s' :
  _fit_categorical s = (r, s') -> hdbscan_ (self s') = hdbscan_ (self s).
Proof.
  unfold _fit_categorical.
  destruct s as [[? ? ? ? ? ? ? ? ? ? ? ?] p]. intros H. exec; reflexivity.
Qed.

Lemma step_keeps_hdbscan_numerical s r s' :
  _fit_numerical s = (r, s') -> hdbscan_ (self s') = hdbscan_ (self s).
Proof.
  unfold _fit_numerical.
  destruct s as [[? ? ? ? ? ? ? ? ? ? ? ?] p]. intros H. exec; reflexivity.
Qed.

Lemma step_keeps_hdbscan_embeddings s r s' :
  _umap_embeddings s = (r, s') -> hdbscan_ (self s') = hdbscan_ (self s).
Proof.
  unfold _umap_embeddings.
  destruct s as [[? ? ? ? ? ? ? ? ? ? ? ?] p]. intros H. exec; reflexivity.
Qed.

Lemma failed_fit_hdbscan_keeps s e s' :
  _fit_hdbscan s = (Raise e, s') -> hdbscan_ (self s') = hdbscan_ (self s).
Proof.
  unfold _fit_hdbscan.
  destruct s as [[? ? ? ? ? ? ? ? ? ? ? ?] p]. intros H. exec; reflexivity.
Qed.

(** A [fit] that raises leaves the cluster model as it was: the
    attribute is assigned by the last statement that can fail. *)
Lemma failed_fit_keeps_hdbscan df s e s' :
  fit df s = (Raise e, s') -> hdbscan_ (self s') = hdbscan_ (self s).
Proof.
  unfold fit. destruct s as [[? ? ? ? ? ? ? ? ? ? ? ?] p]. intros H. exec;
    repeat match goal with
      | H : _fit_categorical _ = _ |- _ =>
          apply step_keeps_hdbscan_categorical in H
      | H : _fit_numerical _ = _ |- _ =>
          apply step_keeps_hdbscan_numerical in H
      | H : _umap_embeddings _ = _ |- _ =>
          apply step_keeps_hdbscan_embeddings in H
      | H : _fit_hdbscan _ = _ |- _ =>
          apply failed_fit_hdbscan_keeps in H
      end; proc_simpl; congruence.
Qed.

(** C3, as the code has it.  While no fit has completed on an instance
    (the attribute [hdbscan_] is unset: so after construction, and also
    after a [fit] that raised), [score] raises the [AttributeError] of
    the missing attribute [hdbscan_], which is not a [NotFittedError];
    [predict] and [predict_proba] never return: they raise, leaving the
    instance as it was, and on an instance without [categorical_umap_]
    and a table the feature extraction accepts what they raise is the
    [AttributeError] of that attribute. *)
Theorem unfitted_instance_raises_attribute_error (s : st) :
  hdbscan_ (self s) = None ->
  score s = (Raise (missing "hdbscan_"), s)
  /\ isinstance (missing "hdbscan_") NotFittedError = false
  /\ (forall df, exists e s',
        predict df s = (Raise e, s') /\ self s' = self s)
  /\ (forall df, exists e s',
        predict_proba df s = (Raise e, s') /\ self s' = self s)
  /\ (forall t Xc Xn,
        categorical_umap_ (self s) = None ->
        split_categorical t (kwargs (self s)) = Ok Xc ->
        split_numerical t (kwargs (self s)) = Ok Xn ->
        fst (predict (DataFrame t) s) = Raise (missing "categorical_umap_")
        /\ fst (predict_proba (DataFrame t) s)
           = Raise (missing "categorical_umap_")
        /\ isinstance (missing "categorical_umap_") NotFittedError = false)
  /\ (forall df e s', fit df s = (Raise e, s') -> hdbscan_ (self s') = None).
Proof.
  intros Hn. split; [|split; [reflexivity|]].
  { unfold score, bind, getattr. now rewrite Hn. }
  assert (Hp : forall df, exists e s',
             _predict_base df s = (Raise e, s') /\ self s' = self s).
  { intros df. destruct (_predict_base df s) as [r s'] eqn:E.
    destruct (unfitted_predict_base_raises _ _ _ _ Hn E) as [e ->].
    exists e, s'. split; [done|]. eapply predict_base_keeps_self; eauto. }
  split; [|split; [|split]].
  - intros df. destruct (Hp df) as (e & s' & H & Hs). exists e, s'.
    split; [|done]. unfold predict. now rewrite (bind_raise _ _ _ _ _ H).
  - intros df. destruct (Hp df) as (e & s' & H & Hs). exists e, s'.
    split; [|done]. unfold predict_proba. now rewrite (bind_raise _ _ _ _ _ H).
  - intros t Xc Xn Hc H1 H2.
    pose proof (fresh_predict_base t Xc Xn s Hc H1 H2) as Hb.
    destruct (_predict_base (DataFrame t) s) as [r s'] eqn:E. simpl in Hb.
    subst r. unfold predict, predict_proba.
    rewrite !(bind_raise _ _ _ _ _ E). repeat split; reflexivity.
  - intros df e s' Hf. rewrite (failed_fit_keeps_hdbscan _ _ _ _ Hf). exact Hn.
Qed.

End Unfitted.

(** ** Failures inside the steps of [fit] *)

Ltac same_call :=
  repeat (simplify_eq;
          match goal with
          | E : ?a = _, H : context [?a] |- _ =>
              tryif is_var a then fail else (progress (rewrite E in H))
          end);
  simplify_eq.


Section Failures.
Context {C : Collab}.












End Failures.

Section Hybrid.
Context {C : Collab}.

(** C2, as the code has it.  Under the hybrid strategy the fusion step
    fits the auxiliary model on the numerical feature matrix that the
    instance holds in [numerical_] (the input the numerical embedding
    model was fit on, not that model's embedding), with the seed, the job
    count and the combined parameter group; the fused model is its
    product with the sum of the numerical and the categorical model. *)
Theorem hybrid_fusion_fits_auxiliary_on_numerical_features
    (s : st) Xn mn mc combined kw aux U F w1 w2 w3 :
  umap_combine_method (self s) = "intersection_union_mapper" ->
  numerical_ (self s) = Some Xn ->
  numerical_umap_ (self s) = Some mn ->
  categorical_umap_ (self s) = Some mc ->
  umap_params (self s) !! "combined" = Some combined ->
  call_kwargs "UMAP"
    [("random_state", rs_value (random_state (self s)));
     ("n_jobs", n_jobs (random_state (self s)))] combined = Ok kw ->
  umap_fit kw Xn (world (glob s)) = (Ok aux, w1) ->
  umap_binop Add mn (OModel mc) w1 = (Ok U, w2) ->
  umap_binop Mul aux (OModel U) w2 = (Ok F, w3) ->
  exists s',
    _umap_embeddings s = (Ok tt, s')
    /\ mapper_ (self s') = Some F
    /\ world (glob s') = w3
    /\ calls (glob s') =
         calls (glob s) ++
           [EvUmapFit kw Xn; EvUmapBinop Add mn (OModel mc);
            EvUmapBinop Mul aux (OModel U)].
Proof.
  intros Hm HX Hn Hc Hg Hk Hf Ha Hmul.
  destruct (_umap_embeddings s) as [r s'] eqn:E. exists s'.
  unfold _umap_embeddings in E.
  destruct s as [[? ? ? ? ? ? ? ? ? ? ? ?] [? ? ? ? ? ?]]. proc_simpl.
  subst. 
  exec; unfold getitem in *; same_call; try discriminate.
  repeat split. proc_simpl. now rewrite <- !app_assoc.
Qed.
End Hybrid.

(** ** Prediction *)

(** Library results on the left, as the runs produced them. *)
Ltac orient :=
  repeat match goal with
    | H : Ok _ = ?f |- _ =>
        lazymatch f with Ok _ => fail | Raise _ => fail | _ => symmetry in H end
    | H : Raise _ = ?f |- _ =>
        lazymatch f with Ok _ => fail | Raise _ => fail | _ => symmetry in H end
    end.

(** Run a computation forward on the library results at hand. *)
Ltac forward :=
  repeat match goal with
    | H : ?f = _ |- context [?f] => rewrite H; proc_simpl
    end.

Section Prediction.
Context {C : Collab}.

Lemma strategy_of_inv name sg :
  strategy_of name = Some sg ->
  match sg with
  | Intersection => name = "intersection"
  | Union => name = "union"
  | Contrast => name = "contrast"
  | IntersectionUnionMapper => name = "intersection_union_mapper"
  end.
Proof.
  unfold strategy_of.
  destruct (String.eqb_spec name "intersection") as [->|?];
    [now intros [= <-]|].
  destruct (String.eqb_spec name "union") as [->|?]; [now intros [= <-]|].
  destruct (String.eqb_spec name "contrast") as [->|?]; [now intros [= <-]|].
  destruct (String.eqb_spec name "intersection_union_mapper") as [->|?];
    [now intros [= <-]|].
  discriminate.
Qed.

Lemma predict_base_refines_spec (s : st) sg cu nu h combined df r s' :
  strategy_of (umap_combine_method (self s)) = Some sg ->
  categorical_umap_ (self s) = Some cu ->
  numerical_umap_ (self s) = Some nu ->
  hdbscan_ (self s) = Some h ->
  umap_params (self s) !! "combined" = Some combined ->
  _predict_base df s = (r, s') ->
  exists p',
    predict_spec sg (random_state (self s)) (kwargs (self s)) combined
      cu nu h df (glob s) = (r, p')
    /\ same_but_log (glob s') p'
    /\ self s' = self s.
Proof.
  intros Hsg Hcu Hnu Hh Hg E. apply strategy_of_inv in Hsg.
  unfold _predict_base in E.
  destruct s as [[? ? ? ? ? ? ? ? ? ? ? ?] [? ? ? ? ? ?]]. proc_simpl.
  destruct sg; subst.
  all: exec; unfold getitem in *; orient; same_call; try discriminate.
  all: eexists; (split; [|split; [|reflexivity]]).
  all: try (unfold predict_spec, fuse_new, extract_categorical,
              extract_numerical, bind, call, call_pure, lift_result, ret;
            proc_simpl; forward; reflexivity).
  all: try (unfold same_but_log; proc_simpl; reflexivity).
Qed.

Lemma fit_categorical_ok s s' :
  _fit_categorical s = (Ok tt, s') ->
  exists m, self s' = set_categorical_umap_ m (self s).
Proof.
  unfold _fit_categorical.
  destruct s as [[? ? ? ? ? ? ? ? ? ? ? ?] p]. intros H. exec; eauto.
Qed.

Lemma fit_numerical_ok s s' :
  _fit_numerical s = (Ok tt, s') ->
  exists m, self s' = set_numerical_umap_ m (self s).
Proof.
  unfold _fit_numerical.
  destruct s as [[? ? ? ? ? ? ? ? ? ? ? ?] p]. intros H. exec; eauto.
Qed.

Lemma umap_embeddings_ok s s' :
  _umap_embeddings s = (Ok tt, s') ->
  exists m, self s' = set_mapper_ m (self s).
Proof.
  unfold _umap_embeddings.
  destruct s as [[? ? ? ? ? ? ? ? ? ? ? ?] p]. intros H. exec; eauto.
Qed.

Lemma fit_hdbscan_ok s s' :
  _fit_hdbscan s = (Ok tt, s') ->
  exists h, self s' = set_hdbscan_ h (self s).
Proof.
  unfold _fit_hdbscan.
  destruct s as [[? ? ? ? ? ? ? ? ? ? ? ?] p]. intros H. exec; eauto.
Qed.

(** A [fit] that returns leaves the configuration as it was and the
    three fitted objects that prediction reads in place. *)
Lemma fit_ok_fitted df s s' :
  fit df s = (Ok tt, s') ->
  config (self s') = config (self s)
  /\ is_Some (categorical_umap_ (self s'))
  /\ is_Some (numerical_umap_ (self s'))
  /\ is_Some (hdbscan_ (self s')).
Proof.
  unfold fit.
  destruct s as [[? ? ? ? ? ? ? ? ? ? ? ?] [? ? ? ? ? ?]]. intros H.
  proc_simpl. exec.
  repeat match goal with u : unit |- _ => destruct u end.
  repeat match goal with
    | H : _fit_categorical _ = (_, ?x) |- _ =>
        apply fit_categorical_ok in H as [? H]; destruct x; proc_simpl; subst
    | H : _fit_numerical _ = (_, ?x) |- _ =>
        apply fit_numerical_ok in H as [? H]; destruct x; proc_simpl; subst
    | H : _umap_embeddings _ = (_, ?x) |- _ =>
        apply umap_embeddings_ok in H as [? H]; destruct x; proc_simpl; subst
    | H : _fit_hdbscan _ = (_, ?x) |- _ =>
        apply fit_hdbscan_ok in H as [? H]; proc_simpl; subst
    end.
  proc_simpl. rewrite H. repeat split; eauto.
Qed.

(** C1. On an instance that holds the two fitted embedding models and
    the fitted cluster model, [_predict_base] is the prediction of the
    specification for the strategy the instance is configured with:
    same result, same calls to the collaborators in the same order, same
    world, the log apart; the instance is not changed, so the next call
    does the same, the hybrid strategy fitting its auxiliary model anew.
    [predict] returns the labels of that result and [predict_proba] the
    strengths. *)
Theorem predict_combines_as_configured (s : st) sg cu nu h combined df :
  strategy_of (umap_combine_method (self s)) = Some sg ->
  categorical_umap_ (self s) = Some cu ->
  numerical_umap_ (self s) = Some nu ->
  hdbscan_ (self s) = Some h ->
  umap_params (self s) !! "combined" = Some combined ->
  exists r s' p',
    _predict_base df s = (r, s')
    /\ predict_spec sg (random_state (self s)) (kwargs (self s)) combined
         cu nu h df (glob s) = (r, p')
    /\ same_but_log (glob s') p'
    /\ self s' = self s
    /\ predict df s = (result_map fst r, s')
    /\ predict_proba df s = (result_map snd r, s').
Proof.
  intros Hsg Hcu Hnu Hh Hg.
  destruct (_predict_base df s) as [r s'] eqn:E.
  destruct (predict_base_refines_spec s sg cu nu h combined df r s'
              Hsg Hcu Hnu Hh Hg E) as (p' & Hspec & Hlog & Hself).
  exists r, s', p'. repeat split; try done.
  - unfold predict, bind. rewrite E. now destruct r.
  - unfold predict_proba, bind. rewrite E. now destruct r.
Qed.

End Prediction.

(** ** Reproducibility under a fixed seed *)

Section Reproducible.
Context {C : Collab}.
Variable seeded : Model -> Prop.
Hypothesis libs : reproducible seeded.

Lemma seeded_kw_of_call fname seed more grp kw :
  call_kwargs fname
    (("random_state", rs_value (Some seed)) :: ("n_jobs", n_jobs (Some seed))
       :: more) grp = Ok kw ->
  seeded_kw kw.
Proof.
  intros H. split; [exists seed|]; rewrite (call_kwargs_lookup _ _ _ _ _ H).
  - now rewrite list_to_map_cons, lookup_insert_eq.
  - rewrite list_to_map_cons, lookup_insert_ne by done.
    now rewrite list_to_map_cons, lookup_insert_eq.
Qed.

Lemma same_fit kw X w1 w2 r1 r2 x1 x2 :
  seeded_kw kw ->
  umap_fit kw X w1 = (r1, x1) -> umap_fit kw X w2 = (r2, x2) -> r1 = r2.
Proof.
  intros Hk H1 H2. pose proof (seeded_fit_result _ libs kw X w1 w2 Hk) as E.
  now rewrite H1, H2 in E.
Qed.

Lemma same_op op m o w1 w2 r1 r2 x1 x2 :
  seeded m ->
  umap_binop op m o w1 = (r1, x1) -> umap_binop op m o w2 = (r2, x2) -> r1 = r2.
Proof.
  intros Hm H1 H2. pose proof (seeded_op_result _ libs op m o w1 w2 Hm) as E.
  now rewrite H1, H2 in E.
Qed.

Lemma same_cluster_fit kw X w1 w2 r1 r2 x1 x2 :
  hdbscan_fit kw X w1 = (r1, x1) -> hdbscan_fit kw X w2 = (r2, x2) -> r1 = r2.
Proof.
  intros H1 H2. pose proof (cluster_fit_result _ libs kw X w1 w2) as E.
  now rewrite H1, H2 in E.
Qed.

End Reproducible.

(** Two runs side by side: the same library call has the same outcome. *)
Ltac same_outcome seeded libs :=
  repeat match goal with
    | H1 : umap_fit ?kw ?X ?w1 = (?r1, _),
      H2 : umap_fit ?kw ?X ?w2 = (?r2, _) |- _ =>
        lazymatch r1 with r2 => fail | _ => idtac end;
        assert (r1 = r2)
          by (eapply (same_fit _ libs); [|exact H1|exact H2];
              eapply seeded_kw_of_call; eassumption);
        simplify_eq
    | H1 : umap_binop ?op ?m ?o ?w1 = (?r1, _),
      H2 : umap_binop ?op ?m ?o ?w2 = (?r2, _) |- _ =>
        lazymatch r1 with r2 => fail | _ => idtac end;
        assert (r1 = r2)
          by (eapply (same_op _ libs); [|exact H1|exact H2]; eauto);
        simplify_eq
    | H1 : hdbscan_fit ?kw ?X ?w1 = (?r1, _),
      H2 : hdbscan_fit ?kw ?X ?w2 = (?r2, _) |- _ =>
        lazymatch r1 with r2 => fail | _ => idtac end;
        assert (r1 = r2) by (eapply (same_cluster_fit _ libs); eauto);
        simplify_eq
    | H : umap_fit _ _ _ = (Ok ?m, _) |- _ =>
        lazymatch goal with
        | _ : seeded m |- _ => fail
        | _ => assert (seeded m)
                 by (eapply (seeded_fit_model _ libs); [|exact H];
                     eapply seeded_kw_of_call; eassumption)
        end
    | H : umap_binop _ ?m0 _ _ = (Ok ?m, _), _ : seeded ?m0 |- _ =>
        lazymatch goal with
        | _ : seeded m |- _ => fail
        | _ => assert (seeded m)
                 by (eapply (seeded_op_model _ libs); [|exact H]; assumption)
        end
    end.

Ltac two_runs :=
  intros [[? ? ? ? ? ? ? ? ? ? ? ?] [? ? ? ? ? ?]]
         [[? ? ? ? ? ? ? ? ? ? ? ?] [? ? ? ? ? ?]] ? ? ? ?;
  let Heq := fresh in
  intros Heq [[? ?] ?] ? ?; proc_simpl;
  injection Heq as ? ? ? ? ? ? ? ? ? ? ? ?; subst; proc_simpl.

Section ReproducibleSteps.
Context {C : Collab}.
Variable seeded : Model -> Prop.
Hypothesis libs : reproducible seeded.

Ltac det_step :=
  two_runs; exec; unfold getitem in *; orient; same_call;
  same_outcome seeded libs;
  (split; [reflexivity|split; [reflexivity|]]; split; [eauto|]);
  proc_simpl; intros; simplify_eq; eauto.

Lemma det_fit_numerical :
  deterministic_on (seeded_instance seeded) _fit_numerical.
Proof. unfold _fit_numerical. det_step. Qed.

Lemma det_fit_categorical :
  deterministic_on (seeded_instance seeded) _fit_categorical.
Proof. unfold _fit_categorical. det_step. Qed.

Lemma det_fit_hdbscan :
  deterministic_on (seeded_instance seeded) _fit_hdbscan.
Proof. unfold _fit_hdbscan. det_step. Qed.

Lemma det_umap_embeddings :
  deterministic_on (seeded_instance seeded) _umap_embeddings.
Proof. unfold _umap_embeddings. det_step. Qed.

Section Compose.
Variable inv : DenseClus -> Prop.

Lemma det_bind {A B} (m : M st A) (k : A -> M st B) :
  deterministic_on inv m -> (forall a, deterministic_on inv (k a)) ->
  deterministic_on inv (bind m k).
Proof.
  intros Hm Hk s1 s2 r1 r2 s1' s2' Hs Hi H1 H2.
  apply bind_inv in H1 as [(a1 & x1 & M1 & K1)|(e1 & M1 & ->)];
    apply bind_inv in H2 as [(a2 & x2 & M2 & K2)|(e2 & M2 & ->)];
    destruct (Hm _ _ _ _ _ _ Hs Hi M1 M2) as (Hr & Hs' & Hi');
    simplify_eq; eauto.
  eapply Hk; eauto.
Qed.

Lemma det_gets {A} (f : st -> A) :
  (forall s1 s2, self s1 = self s2 -> f s1 = f s2) ->
  deterministic_on inv (gets f).
Proof.
  intros Hf s1 s2 r1 r2 s1' s2' Hs Hi [= <- <-] [= <- <-].
  now rewrite (Hf _ _ Hs).
Qed.

Lemma det_raise {A} e : deterministic_on inv (@raise st A e).
Proof. now intros s1 s2 r1 r2 s1' s2' Hs Hi [= <- <-] [= <- <-]. Qed.

Lemma det_global {A} (m : M proc A) :
  (forall p1 p2, fst (m p1) = fst (m p2)) ->
  deterministic_on inv (global m).
Proof.
  intros Hm s1 s2 r1 r2 s1' s2' Hs Hi. unfold global, zoom.
  pose proof (Hm (glob s1) (glob s2)) as E.
  destruct (m (glob s1)) as [a1 p1], (m (glob s2)) as [a2 p2]. simpl in E.
  now intros [= <- <-] [= <- <-].
Qed.

Lemma det_setattr upd :
  (forall d, inv d -> inv (upd d)) ->
  deterministic_on inv (setattr upd).
Proof.
  intros Hu s1 s2 r1 r2 s1' s2' Hs Hi [= <- <-] [= <- <-]. simpl.
  rewrite Hs. split; [done|]. split; [done|]. rewrite <- Hs. now apply Hu.
Qed.

End Compose.

Lemma seeded_set_categorical_ x d :
  seeded_instance seeded d -> seeded_instance seeded (set_categorical_ x d).
Proof. now destruct d. Qed.

Lemma seeded_set_numerical_ x d :
  seeded_instance seeded d -> seeded_instance seeded (set_numerical_ x d).
Proof. now destruct d. Qed.

Lemma det_fit df : deterministic_on (seeded_instance seeded) (fit df).
Proof.
  unfold fit. destruct (negb (isinstance_DataFrame df)); [apply det_raise|].
  repeat first
    [ apply det_fit_categorical | apply det_fit_numerical
    | apply det_umap_embeddings | apply det_fit_hdbscan
    | apply det_global; reflexivity
    | apply det_gets; intros ? ? ->; reflexivity
    | apply det_setattr; apply seeded_set_categorical_
    | apply det_setattr; apply seeded_set_numerical_
    | apply det_bind; [|intros ?] ].
Qed.

(** The constructor's outcome does not depend on the process. *)
Lemma init_same_outcome rs m v up hp kw p1 p2 :
  fst (__init__ rs m v up hp kw p1) = fst (__init__ rs m v up hp kw p2).
Proof.
  unfold __init__. destruct (negb _); [reflexivity|].
  unfold bind at 1 3.
  destruct (truthy_groups up); unfold lift_result, ret.
  - destruct (update_groups default_umap_params (default [] up));
      [|reflexivity].
    destruct p1 as [? ? ? ? w1 ?], p2 as [? ? ? ? w2 ?].
    destruct v, rs as [z|]; cbn; unfold bind, call; cbn;
      try (pose proof (seeding_result _ libs z w1 w2) as E;
           destruct (np_random_seed z w1) as [[[]|?] ?],
                    (np_random_seed z w2) as [[[]|?] ?]; simpl in E;
           simplify_eq); reflexivity.
  - destruct p1 as [? ? ? ? w1 ?], p2 as [? ? ? ? w2 ?].
    destruct v, rs as [z|]; cbn; unfold bind, call; cbn;
      try (pose proof (seeding_result _ libs z w1 w2) as E;
           destruct (np_random_seed z w1) as [[[]|?] ?],
                    (np_random_seed z w2) as [[[]|?] ?]; simpl in E;
           simplify_eq); reflexivity.
Qed.

Lemma seeded_fit_of_configured seed hp ev :
  as_configured (Some seed) hp ev -> seeded_fit seed ev.
Proof. destruct ev; simpl; tauto. Qed.

Lemma unforced_of_configured rs hp ev :
  as_configured rs hp ev -> cluster_fit_unforced hp ev.
Proof. destruct ev; simpl; tauto. Qed.

Lemma configured_run {A} (m : M st A) seed s r s' :
  (forall rs hp, preserves (method_step rs hp) m) ->
  random_state (self s) = Some seed ->
  m s = (r, s') ->
  adds_only (seeded_fit seed) (glob s) (glob s')
  /\ adds_only (cluster_fit_unforced (hdbscan_params (self s)))
       (glob s) (glob s').
Proof.
  intros Hm Hr H.
  pose proof (Hm (Some seed) (hdbscan_params (self s)) s r s' H) as Hstep.
  apply method_step_adds_only in Hstep; [|done|done].
  destruct Hstep as (evs & Hc & Hf).
  split; exists evs; (split; [done|]); (eapply Forall_impl; [exact Hf|]);
    intros ev.
  - apply seeded_fit_of_configured.
  - apply unforced_of_configured.
Qed.

(** C8, as the code has it.  With an integer seed every embedding fit
    the instance requests, in [fit] and in prediction, is given that
    seed and a single job; the cluster fit is given no seed and no job
    count: apart from [prediction_data] its keywords are the clustering
    parameters as configured.  So, with libraries that are reproducible
    in the sense above, two runs that construct with the same seed and
    arguments and fit the same table, in whatever process states, have
    the same outcome and leave the same instance: the same fitted
    cluster model, hence the same labels and strengths. *)
Theorem seeded_runs_agree (seed : Z) m v up hp kw t :
  (forall p1 p2,
     fst (construct_and_fit (Some seed) m v up hp kw t p1)
     = fst (construct_and_fit (Some seed) m v up hp kw t p2))
  /\ (forall df s r s',
        random_state (self s) = Some seed -> fit df s = (r, s') ->
        adds_only (seeded_fit seed) (glob s) (glob s')
        /\ adds_only (cluster_fit_unforced (hdbscan_params (self s)))
             (glob s) (glob s'))
  /\ (forall df s r s',
        random_state (self s) = Some seed -> _predict_base df s = (r, s') ->
        adds_only (seeded_fit seed) (glob s) (glob s')).
Proof.
  split; [|split].
  - intros p1 p2. unfold construct_and_fit.
    pose proof (init_same_outcome (Some seed) m v up hp kw p1 p2) as E.
    destruct (__init__ (Some seed) m v up hp kw p1) as [[d1|e1] q1] eqn:E1,
             (__init__ (Some seed) m v up hp kw p2) as [[d2|e2] q2] eqn:E2;
      simpl in E; simplify_eq; [|reflexivity].
    destruct (fit (DataFrame t) (St d2 q1)) as [r1 s1] eqn:F1,
             (fit (DataFrame t) (St d2 q2)) as [r2 s2] eqn:F2. simpl.
    destruct (det_fit (DataFrame t) (St d2 q1) (St d2 q2) r1 r2 s1 s2)
      as (Hr & Hs & _); try done.
    + apply init_inv in E1 as (_ & _ & ->). split; [now exists seed|].
      discriminate.
    + now rewrite Hr, Hs.
  - intros df s r s' Hr H.
    eapply configured_run; eauto. intros; apply step_fit.
  - intros df s r s' Hr H.
    eapply configured_run; eauto. intros; apply step_predict_base.
Qed.

End ReproducibleSteps.

(** * Further properties of the class *)

(** ** The constructor *)

Section ConstructorFacts.
Context {C : Collab}.

Lemma dom_default_umap_params :
  dom default_umap_params
  = ({[ "categorical"; "numerical"; "combined" ]} : gset string).
Proof.
  unfold default_umap_params. rewrite !dom_insert_L, dom_singleton_L.
  apply set_eq. intros g. rewrite !elem_of_union, !elem_of_singleton. tauto.
Qed.

(** X1. Whatever groups the user supplies, a constructed instance has
    exactly the three parameter groups categorical, numerical and
    combined: the loop only updates groups that exist.  So the steps of
    [fit] and the prediction always find the group they read. *)
Theorem constructed_instance_has_the_three_groups rs m v up hp kw p d p' :
  __init__ rs m v up hp kw p = (Ok d, p') ->
  dom (umap_params d)
  = ({[ "categorical"; "numerical"; "combined" ]} : gset string)
  /\ (forall g, g ∈ ["categorical"; "numerical"; "combined"] ->
        exists grp, getitem (umap_params d) g = Ok grp).
Proof.
  intros H. apply init_inv in H as (_ & Hups & _).
  assert (Hd : dom (umap_params d)
               = ({[ "categorical"; "numerical"; "combined" ]} : gset string)).
  { rewrite <- dom_default_umap_params. destruct (truthy_groups up).
    - eapply update_groups_dom; eauto.
    - now injection Hups as <-. }
  split; [exact Hd|]. intros g Hg. unfold getitem.
  destruct (umap_params d !! g) as [grp|] eqn:E; [eauto|].
  exfalso. apply not_elem_of_dom in E. apply E. rewrite Hd.
  rewrite !elem_of_cons, elem_of_nil in Hg.
  rewrite !elem_of_union, !elem_of_singleton. tauto.
Qed.

(** X2. When numpy refuses the seed, the constructor raises numpy's
    exception and builds no instance, but the process has already been
    changed: the logger level is set, [warnings.warn] is the no-op when
    [verbose] is false, and the seeding call has been made. *)
Theorem refused_seed_leaves_the_side_effects seed m v up hp kw p e w' :
  m ∈ strategies ->
  (forall user, up = Some user -> first_unknown_group user = None) ->
  np_random_seed seed (world p) = (Raise e, w') ->
  fst (__init__ (Some seed) m v up hp kw p) = Raise e
  /\ logger_level (snd (__init__ (Some seed) m v up hp kw p))
     = (if v then DEBUG else ERROR)
  /\ warnings_warn (snd (__init__ (Some seed) m v up hp kw p))
     = (if v then warnings_warn p else warn_noop)
  /\ calls (snd (__init__ (Some seed) m v up hp kw p))
     = calls p ++ [EvSeed seed].
Proof.
  intros Hm Hup Hs.
  destruct (init_valid_proc (Some seed) m v up hp kw p Hm Hup)
    as (Hl & Hw & Hc & _).
  split; [|split; [exact Hl|split; [exact Hw|exact Hc]]].
  unfold __init__.
  rewrite (bool_decide_eq_true_2 _ Hm). simpl.
  assert (Hg : exists ups,
             (if truthy_groups up
              then lift_result
                     (update_groups default_umap_params (default [] up))
              else ret default_umap_params) p = (Ok ups, p)).
  { destruct up as [[|kv user]|]; cbn [truthy_groups default]; eauto.
    destruct (update_groups_known (kv :: user) default_umap_params)
      as [g Hgr]; [done|now apply Hup|].
    exists g. unfold lift_result.
    change (id (kv :: user)) with (kv :: user). now rewrite Hgr. }
  destruct Hg as [ups Hg]. rewrite (bind_ok _ _ _ _ _ Hg).
  destruct p as [l h f sw w c]. cbn in Hs.
  destruct v; cbn; unfold bind, call; cbn; now rewrite Hs.
Qed.

(** X3. A construction without a seed that passes the validations
    calls no library, and its one log record, that no seed was passed,
    is written exactly when [verbose] is true: the level is set before
    the record is logged. *)
Theorem unseeded_construction_logs_when_verbose m v up hp kw p :
  m ∈ strategies ->
  (forall user, up = Some user -> first_unknown_group user = None) ->
  handled (snd (__init__ None m v up hp kw p))
  = handled p
    ++ (if v
        then [(INFO, "No random seed passed, running UMAP in Numba, parallel")]
        else [])
  /\ calls (snd (__init__ None m v up hp kw p)) = calls p
  /\ world (snd (__init__ None m v up hp kw p)) = world p.
Proof.
  intros Hm Hup. rewrite init_valid_run by done.
  destruct p as [l h f sw w c]. unfold logger_info, logger_log, modify.
  destruct v; cbn; now rewrite ?app_nil_r.
Qed.

End ConstructorFacts.

(** ** Keywords the class passes itself *)

Section ReservedKeywords.
Context {C : Collab}.

Lemma call_kwargs_conflict f explicit extra k :
  k ∈ explicit.*1 -> is_Some (extra !! k) ->
  exists e, call_kwargs f explicit extra = Raise e /\ exn_class e = TypeError.
Proof.
  intros Hk Hx. unfold call_kwargs.
  destruct (List.find _ explicit) as [kv|] eqn:E; [eauto|].
  exfalso. apply list_elem_of_fmap in Hk as ([k' v] & -> & Hin).
  apply list_elem_of_In in Hin. pose proof (find_none _ _ E _ Hin) as Hb.
  simpl in Hb. now apply bool_decide_eq_false in Hb.
Qed.

Lemma embedding_call_conflict rs grp k :
  k ∈ embedding_keywords -> is_Some (grp !! k) ->
  exists e,
    call_kwargs "UMAP"
      [("random_state", rs_value rs); ("n_jobs", n_jobs rs);
       ("verbose", VBool false)] grp = Raise e
    /\ exn_class e = TypeError.
Proof. intros Hk. now apply call_kwargs_conflict. Qed.

Ltac conflict :=
  unfold getitem in *;
  repeat match goal with
    | H : ?d !! ?g = Some _, H' : context [?d !! ?g] |- _ =>
        rewrite H in H'
    end;
  simplify_eq;
  repeat match goal with
    | H : call_kwargs "UMAP" (("random_state", rs_value ?rs) :: _) ?grp = _,
      Hk : ?k ∈ embedding_keywords, Hs : is_Some (?grp !! ?k) |- _ =>
        let e := fresh "e" in
        let He := fresh in
        let Hc := fresh in
        destruct (embedding_call_conflict rs grp k Hk Hs) as (e & He & Hc);
        rewrite He in H; clear He; simplify_eq
    end.

Ltac raised :=
  eexists _, _; split; [reflexivity|]; split; [assumption|];
  split; reflexivity.

Lemma failed_fit_categorical_conflict s grp k :
  umap_params (self s) !! "categorical" = Some grp ->
  k ∈ embedding_keywords -> is_Some (grp !! k) ->
  exists e s',
    _fit_categorical s = (Raise e, s') /\ exn_class e = TypeError
    /\ self s' = self s /\ calls (glob s') = calls (glob s).
Proof.
  destruct s as [[? ? ? ? ? ? ? ? ? ? ? ?] [? ? ? ? ? ?]]. proc_simpl.
  intros Hg Hk Hs.
  destruct (_fit_categorical _) as [r s'] eqn:E. unfold _fit_categorical in E.
  exec; conflict; raised.
Qed.

Lemma failed_fit_numerical_conflict s grp k :
  umap_params (self s) !! "numerical" = Some grp ->
  k ∈ embedding_keywords -> is_Some (grp !! k) ->
  exists e s',
    _fit_numerical s = (Raise e, s') /\ exn_class e = TypeError
    /\ self s' = self s /\ calls (glob s') = calls (glob s).
Proof.
  destruct s as [[? ? ? ? ? ? ? ? ? ? ? ?] [? ? ? ? ? ?]]. proc_simpl.
  intros Hg Hk Hs.
  destruct (_fit_numerical _) as [r s'] eqn:E. unfold _fit_numerical in E.
  exec; conflict; raised.
Qed.

Lemma failed_fit_hdbscan_conflict s v :
  hdbscan_params (self s) !! "prediction_data" = Some v ->
  exists e s',
    _fit_hdbscan s = (Raise e, s') /\ exn_class e = TypeError
    /\ self s' = self s /\ calls (glob s') = calls (glob s).
Proof.
  destruct s as [[? ? ? hp ? ? ? ? ? ? ? ?] [? ? ? ? ? ?]]. proc_simpl.
  intros Hv.
  destruct (call_kwargs_conflict "HDBSCAN" [("prediction_data", VBool true)]
              hp "prediction_data") as (e & He & Hc);
    [set_solver|eauto|].
  destruct (_fit_hdbscan _) as [r s'] eqn:E. unfold _fit_hdbscan in E.
  exec;
    repeat match goal with
      | H : call_kwargs _ _ _ = _ |- _ => rewrite He in H; simplify_eq
      end; raised.
Qed.

(** The instance at each step of a [fit] run, from the steps that
    returned before it. *)
Ltac instance_at_step :=
  repeat match goal with u : unit |- _ => destruct u end;
  repeat match goal with
    | H : _fit_categorical _ = (Ok _, ?x) |- _ =>
        apply fit_categorical_ok in H as [? H]; destruct x; proc_simpl; subst
    | H : _fit_numerical _ = (Ok _, ?x) |- _ =>
        apply fit_numerical_ok in H as [? H]; destruct x; proc_simpl; subst
    | H : _umap_embeddings _ = (Ok _, ?x) |- _ =>
        apply umap_embeddings_ok in H as [? H]; destruct x; proc_simpl; subst
    end.

Lemma fit_fails_on_categorical_conflict s grp k df r s' :
  umap_params (self s) !! "categorical" = Some grp ->
  k ∈ embedding_keywords -> is_Some (grp !! k) ->
  fit df s = (r, s') -> exists e, r = Raise e.
Proof.
  unfold fit. destruct s as [[? ? ? ? ? ? ? ? ? ? ? ?] [? ? ? ? ? ?]].
  proc_simpl. intros Hg Hk Hs H. exec.
  all: try solve [eauto].
  all: match goal with
       | H : _fit_categorical ?S = (Ok _, _) |- _ =>
           destruct (failed_fit_categorical_conflict S grp k)
             as (? & ? & He & _); [assumption..|];
           rewrite He in H; discriminate
       end.
Qed.

Lemma fit_fails_on_numerical_conflict s grp k df r s' :
  umap_params (self s) !! "numerical" = Some grp ->
  k ∈ embedding_keywords -> is_Some (grp !! k) ->
  fit df s = (r, s') -> exists e, r = Raise e.
Proof.
  unfold fit. destruct s as [[? ? ? ? ? ? ? ? ? ? ? ?] [? ? ? ? ? ?]].
  proc_simpl. intros Hg Hk Hs H. exec.
  all: try solve [eauto].
  all: repeat match goal with u : unit |- _ => destruct u end.
  all: match goal with
       | H : _fit_categorical _ = (Ok _, ?x) |- _ =>
           apply fit_categorical_ok in H as [? H]; destruct x; proc_simpl; subst
       end.
  all: match goal with
       | H : _fit_numerical ?S = (Ok _, _) |- _ =>
           destruct (failed_fit_numerical_conflict S grp k)
             as (? & ? & He & _); [assumption..|];
           rewrite He in H; discriminate
       end.
Qed.

Lemma fit_fails_on_cluster_conflict s v df r s' :
  hdbscan_params (self s) !! "prediction_data" = Some v ->
  fit df s = (r, s') -> exists e, r = Raise e.
Proof.
  unfold fit. destruct s as [[? ? ? ? ? ? ? ? ? ? ? ?] [? ? ? ? ? ?]].
  proc_simpl. intros Hv H. exec.
  all: try solve [eauto].
  all: instance_at_step.
  all: match goal with
       | H : _fit_hdbscan ?S = _ |- _ =>
           destruct (failed_fit_hdbscan_conflict S v)
             as (? & ? & He & _); [assumption|];
           rewrite He in H; simplify_eq; eauto
       end.
Qed.

(** X4. The embedding fits are given [random_state], [n_jobs] and
    [verbose] by the class.  When the categorical or the numerical
    parameter group of the instance has one of these keys as well, the
    step that unpacks the group raises a [TypeError] before the library
    is called, leaving the instance as it was, and [fit] never
    returns. *)
Theorem reserved_embedding_keyword_is_a_type_error s g grp k :
  g ∈ ["categorical"; "numerical"] ->
  umap_params (self s) !! g = Some grp ->
  k ∈ embedding_keywords -> is_Some (grp !! k) ->
  (g = "categorical" ->
     exists e s',
       _fit_categorical s = (Raise e, s') /\ exn_class e = TypeError
       /\ self s' = self s /\ calls (glob s') = calls (glob s))
  /\ (g = "numerical" ->
       exists e s',
         _fit_numerical s = (Raise e, s') /\ exn_class e = TypeError
         /\ self s' = self s /\ calls (glob s') = calls (glob s))
  /\ (forall df, exists e, fst (fit df s) = Raise e).
Proof.
  intros Hg Hgrp Hk Hs. split; [|split].
  - intros ->. eapply failed_fit_categorical_conflict; eauto.
  - intros ->. eapply failed_fit_numerical_conflict; eauto.
  - intros df. destruct (fit df s) as [r s'] eqn:E. simpl.
    rewrite !elem_of_cons, elem_of_nil in Hg.
    destruct Hg as [->|[->|[]]].
    + eapply fit_fails_on_categorical_conflict; eauto.
    + eapply fit_fails_on_numerical_conflict; eauto.
Qed.

(** X5. The cluster fit is given [prediction_data=True] by the class.
    When the clustering parameters of the instance have the key
    [prediction_data] as well, whatever its value, the cluster step
    raises a [TypeError] before the library is called, leaving the
    instance as it was, and [fit] never returns. *)
Theorem prediction_data_in_parameters_is_a_type_error s v :
  hdbscan_params (self s) !! "prediction_data" = Some v ->
  (exists e s',
     _fit_hdbscan s = (Raise e, s') /\ exn_class e = TypeError
     /\ self s' = self s /\ calls (glob s') = calls (glob s))
  /\ (forall df, exists e, fst (fit df s) = Raise e).
Proof.
  intros Hv. split; [now apply failed_fit_hdbscan_conflict with v|].
  intros df. destruct (fit df s) as [r s'] eqn:E. simpl.
  eapply fit_fails_on_cluster_conflict; eauto.
Qed.

End ReservedKeywords.

(** ** What a run of [fit] asks of the libraries and writes to the log *)

(** The events and the records a run added, read off the final state. *)
Ltac added :=
  unfold adds_only; proc_simpl; eexists; split;
  [ events_eq
  | cbn [app]; repeat first [apply Forall_nil_2 | apply Forall_cons_2];
    simpl; auto ].

Ltac quiet :=
  let Hl := fresh in
  proc_simpl; intros Hl;
  repeat match goal with
    | |- context [Z.leb ?l INFO] =>
        rewrite (proj2 (Z.leb_gt l INFO) Hl)
    | |- context [Z.leb ?a ?b] => destruct (Z.leb a b)
    end;
  eexists; (split; [events_eq|]);
  (split;
   [cbn [app]; repeat first [apply Forall_nil_2 | apply Forall_cons_2];
    reflexivity|]);
  (split; [cbn; lia|]);
  intros; first [reflexivity|discriminate].

Ltac outcome :=
  split; [added|split; [reflexivity|quiet]].

Section FitRuns.
Context {C : Collab}.

Ltac outcomes :=
  intros [[? ? ? ? ? ? ? ? ? ? ? ?] [? ? ? ? ? ?]] ? ? ?;
  proc_simpl; exec; outcome.

Lemma fit_categorical_outcome df kw : step_outcome df kw _fit_categorical.
Proof. unfold _fit_categorical. outcomes. Qed.

Lemma fit_numerical_outcome df kw : step_outcome df kw _fit_numerical.
Proof. unfold _fit_numerical. outcomes. Qed.

Lemma umap_embeddings_outcome df kw : step_outcome df kw _umap_embeddings.
Proof. unfold _umap_embeddings. outcomes. Qed.

Lemma fit_hdbscan_outcome df kw : step_outcome df kw _fit_hdbscan.
Proof. unfold _fit_hdbscan. outcomes. Qed.

Lemma fit_outcome df s r s' :
  fit df s = (r, s') ->
  adds_only (fit_call df (kwargs (self s))) (glob s) (glob s')
  /\ logger_level (glob s') = logger_level (glob s)
  /\ ((INFO < logger_level (glob s))%Z ->
      exists recs,
        handled (glob s') = handled (glob s) ++ recs
        /\ Forall (fun x => fst x = ERROR) recs
        /\ (length recs <= 1)%nat
        /\ (r = Ok tt -> recs = [])).
Proof.
  unfold fit. destruct s as [[? ? ? ? ? kw ? ? ? ? ? ?] [? ? ? ? ? ?]].
  intros H. proc_simpl. exec.
  all: repeat match goal with u : unit |- _ => destruct u end.
  all: repeat match goal with
    | H : _fit_categorical _ = (_, ?x) |- _ =>
        apply (fit_categorical_outcome df kw) in H as ((? & ? & ?) & ? & ?)
    | H : _fit_numerical _ = (_, ?x) |- _ =>
        apply (fit_numerical_outcome df kw) in H as ((? & ? & ?) & ? & ?)
    | H : _umap_embeddings _ = (_, ?x) |- _ =>
        apply (umap_embeddings_outcome df kw) in H as ((? & ? & ?) & ? & ?)
    | H : _fit_hdbscan _ = (_, ?x) |- _ =>
        apply (fit_hdbscan_outcome df kw) in H as ((? & ? & ?) & ? & ?)
    end.
  all: repeat match goal with
    | x : st |- _ => destruct x as [[? ? ? ? ? ? ? ? ? ? ? ?] [? ? ? ? ? ?]]
    end.
  all: proc_simpl; subst.
  all: split;
    [ unfold adds_only; proc_simpl; rewrite <- ?app_assoc;
      eexists; split; [first [reflexivity|apply none_added]|]; cbn [app];
      repeat first [apply Forall_nil_2 | apply Forall_cons_2
                   | apply Forall_app_2]; simpl; auto
    | split; [reflexivity|] ].
  all: intros Hlvl.
  all: repeat match goal with
    | Hq : (INFO < _)%Z -> _ |- _ =>
        destruct (Hq Hlvl) as (? & ? & ? & ? & ?); clear Hq
    end.
  all: repeat match goal with
    | H : context [Z.leb ?l INFO] |- _ =>
        rewrite (proj2 (Z.leb_gt l INFO) Hlvl) in H
    | |- context [Z.leb ?l INFO] => rewrite (proj2 (Z.leb_gt l INFO) Hlvl)
    | H : Ok () = Ok () -> _ = [] |- _ => specialize (H eq_refl)
    end.
  all: subst; rewrite ?app_nil_r.
  all: first
    [ exists []; rewrite app_nil_r; repeat split; solve [auto]
    | eexists; split; [reflexivity|]; repeat split; solve [auto] ].
Qed.

(** X6. Whatever its outcome, [fit] asks the libraries for nothing but
    the two feature extractions, of its argument with the instance's
    keyword arguments, embedding fits, operators on models and cluster
    fits: it never transforms data with a fitted model, never computes on
    coordinate matrices, never asks for a prediction. *)
Theorem fit_only_extracts_and_fits df s :
  adds_only (fit_call df (kwargs (self s))) (glob s) (glob (snd (fit df s))).
Proof.
  destruct (fit df s) as [r s'] eqn:E. now apply fit_outcome in E.
Qed.

(** X7. With the logger above INFO, as a construction with [verbose]
    false leaves it, [fit] keeps the level and writes at most one
    record, of level ERROR; a [fit] that returns writes none. *)
Theorem quiet_fit_logs_at_most_one_error df s :
  (INFO < logger_level (glob s))%Z ->
  logger_level (glob (snd (fit df s))) = logger_level (glob s)
  /\ exists recs,
       handled (glob (snd (fit df s))) = handled (glob s) ++ recs
       /\ Forall (fun x => fst x = ERROR) recs
       /\ (length recs <= 1)%nat
       /\ (fst (fit df s) = Ok tt -> recs = []).
Proof.
  intros Hl. destruct (fit df s) as [r s'] eqn:E.
  apply fit_outcome in E as (_ & Hk & Hq). split; [exact Hk|].
  exact (Hq Hl).
Qed.

End FitRuns.

Section FitReturns.
Context {C : Collab}.

Lemma fit_categorical_run s s' :
  _fit_categorical s = (Ok tt, s') ->
  exists X grp kw m,
    categorical_ (self s) = Some X
    /\ umap_params (self s) !! "categorical" = Some grp
    /\ call_kwargs "UMAP"
         [("random_state", rs_value (random_state (self s)));
          ("n_jobs", n_jobs (random_state (self s)));
          ("verbose", VBool false)] grp = Ok kw
    /\ umap_fit kw X (world (glob s)) = (Ok m, world (glob s'))
    /\ self s' = set_categorical_umap_ m (self s)
    /\ calls (glob s') = calls (glob s) ++ [EvUmapFit kw X].
Proof.
  unfold _fit_categorical.
  destruct s as [[? ? ? ? ? ? ? ? ? ? ? ?] [? ? ? ? ? ?]]. intros H.
  proc_simpl. exec. unfold getitem in *.
  destruct (_ !! "categorical") eqn:Hg; simplify_eq. eauto 10.
Qed.

Lemma fit_numerical_run s s' :
  _fit_numerical s = (Ok tt, s') ->
  exists X grp kw m,
    numerical_ (self s) = Some X
    /\ umap_params (self s) !! "numerical" = Some grp
    /\ call_kwargs "UMAP"
         [("random_state", rs_value (random_state (self s)));
          ("n_jobs", n_jobs (random_state (self s)));
          ("verbose", VBool false)] grp = Ok kw
    /\ umap_fit kw X (world (glob s)) = (Ok m, world (glob s'))
    /\ self s' = set_numerical_umap_ m (self s)
    /\ calls (glob s') = calls (glob s) ++ [EvUmapFit kw X].
Proof.
  unfold _fit_numerical.
  destruct s as [[? ? ? ? ? ? ? ? ? ? ? ?] [? ? ? ? ? ?]]. intros H.
  proc_simpl. exec. unfold getitem in *.
  destruct (_ !! "numerical") eqn:Hg; simplify_eq. eauto 10.
Qed.

Lemma umap_embeddings_run s s' :
  _umap_embeddings s = (Ok tt, s') ->
  exists mn mc F fuse,
    numerical_umap_ (self s) = Some mn
    /\ categorical_umap_ (self s) = Some mc
    /\ self s' = set_mapper_ F (self s)
    /\ calls (glob s') = calls (glob s) ++ fuse
    /\ ((exists op,
           (umap_combine_method (self s), op)
             ∈ [("intersection", Mul); ("union", Add); ("contrast", Sub)]
           /\ fuse = [EvUmapBinop op mn (OModel mc)]
           /\ umap_binop op mn (OModel mc) (world (glob s))
              = (Ok F, world (glob s')))
        \/ (exists Xn grp kw aux U w1 w2,
              umap_combine_method (self s) = "intersection_union_mapper"
              /\ numerical_ (self s) = Some Xn
              /\ umap_params (self s) !! "combined" = Some grp
              /\ call_kwargs "UMAP"
                   [("random_state", rs_value (random_state (self s)));
                    ("n_jobs", n_jobs (random_state (self s)))] grp = Ok kw
              /\ fuse = [EvUmapFit kw Xn; EvUmapBinop Add mn (OModel mc);
                         EvUmapBinop Mul aux (OModel U)]
              /\ umap_fit kw Xn (world (glob s)) = (Ok aux, w1)
              /\ umap_binop Add mn (OModel mc) w1 = (Ok U, w2)
              /\ umap_binop Mul aux (OModel U) w2 = (Ok F, world (glob s')))).
Proof.
  unfold _umap_embeddings.
  destruct s as [[? m ? ? ? ? ? ? ? ? ? ?] [? ? ? ? ? ?]]. intros H.
  proc_simpl. exec.
  all: repeat match goal with
         | H : String.eqb _ _ = true |- _ => apply String.eqb_eq in H; subst
         end.
  1-3: eexists _, _, _, _; do 4 (split; [reflexivity|]); left;
    eexists; (split; [|split; [reflexivity|eassumption]]);
    rewrite !elem_of_cons; auto.
  unfold getitem in *. destruct (_ !! "combined") eqn:Hg; simplify_eq.
  eexists _, _, _, _. do 3 (split; [reflexivity|]).
  split; [proc_simpl; rewrite <- !app_assoc; reflexivity|].
  right. eexists _, _, _, _, _, _, _. repeat split; eauto.
Qed.

Lemma fit_hdbscan_run s s' :
  _fit_hdbscan s = (Ok tt, s') ->
  exists mp kw h,
    mapper_ (self s) = Some mp
    /\ call_kwargs "HDBSCAN" [("prediction_data", VBool true)]
         (hdbscan_params (self s)) = Ok kw
    /\ hdbscan_fit kw (embedding_ mp) (world (glob s)) = (Ok h, world (glob s'))
    /\ self s' = set_hdbscan_ h (self s)
    /\ calls (glob s') = calls (glob s) ++ [EvHdbscanFit kw (embedding_ mp)].
Proof.
  unfold _fit_hdbscan.
  destruct s as [[? ? ? ? ? ? ? ? ? ? ? ?] [? ? ? ? ? ?]]. intros H.
  proc_simpl. exec. eauto 10.
Qed.

Lemma fit_trace {A} (c f : list A) a b d e g :
  (((((c ++ [a]) ++ [b]) ++ [d]) ++ [e]) ++ f) ++ [g]
  = c ++ [a; b; d; e] ++ f ++ [g].
Proof. now rewrite <- !app_assoc. Qed.

(** X8. A [fit] that returns was given a table that both extractions
    accepted, and asked the libraries, in this order, for: the
    categorical and the numerical extraction of the argument, an
    embedding fit on the categorical matrix, an embedding fit on the
    numerical matrix, the fits and operators of the fusion ([n op c] on
    the two models just fitted, or under the hybrid strategy an auxiliary
    fit on the numerical matrix, [n + c], and their product), and one
    cluster fit, on the embedding of the fused model.  Each call was made
    in the world the previous one left; the six fitted attributes hold
    the two matrices and what those very calls returned, and the
    configuration is as before. *)
Theorem returned_fit_called_in_order df s s' :
  fit df s = (Ok tt, s') ->
  exists t Xc Xn gc gn kwc kwn mc mn w1 w2 fuse F w3 kwh h,
    df = DataFrame t
    /\ split_categorical t (kwargs (self s)) = Ok Xc
    /\ split_numerical t (kwargs (self s)) = Ok Xn
    /\ umap_params (self s) !! "categorical" = Some gc
    /\ call_kwargs "UMAP"
         [("random_state", rs_value (random_state (self s)));
          ("n_jobs", n_jobs (random_state (self s)));
          ("verbose", VBool false)] gc = Ok kwc
    /\ umap_fit kwc Xc (world (glob s)) = (Ok mc, w1)
    /\ umap_params (self s) !! "numerical" = Some gn
    /\ call_kwargs "UMAP"
         [("random_state", rs_value (random_state (self s)));
          ("n_jobs", n_jobs (random_state (self s)));
          ("verbose", VBool false)] gn = Ok kwn
    /\ umap_fit kwn Xn w1 = (Ok mn, w2)
    /\ ((exists op,
           (umap_combine_method (self s), op)
             ∈ [("intersection", Mul); ("union", Add); ("contrast", Sub)]
           /\ fuse = [EvUmapBinop op mn (OModel mc)]
           /\ umap_binop op mn (OModel mc) w2 = (Ok F, w3))
        \/ (exists grp kw aux U wa wb,
              umap_combine_method (self s) = "intersection_union_mapper"
              /\ umap_params (self s) !! "combined" = Some grp
              /\ call_kwargs "UMAP"
                   [("random_state", rs_value (random_state (self s)));
                    ("n_jobs", n_jobs (random_state (self s)))] grp = Ok kw
              /\ fuse = [EvUmapFit kw Xn; EvUmapBinop Add mn (OModel mc);
                         EvUmapBinop Mul aux (OModel U)]
              /\ umap_fit kw Xn w2 = (Ok aux, wa)
              /\ umap_binop Add mn (OModel mc) wa = (Ok U, wb)
              /\ umap_binop Mul aux (OModel U) wb = (Ok F, w3)))
    /\ call_kwargs "HDBSCAN" [("prediction_data", VBool true)]
         (hdbscan_params (self s)) = Ok kwh
    /\ hdbscan_fit kwh (embedding_ F) w3 = (Ok h, world (glob s'))
    /\ calls (glob s') =
         calls (glob s)
         ++ [EvExtractCategorical df (kwargs (self s));
             EvExtractNumerical df (kwargs (self s));
             EvUmapFit kwc Xc; EvUmapFit kwn Xn]
         ++ fuse ++ [EvHdbscanFit kwh (embedding_ F)]
    /\ self s' =
         Build_DenseClus (random_state (self s)) (umap_combine_method (self s))
           (umap_params (self s)) (hdbscan_params (self s)) (verbose (self s))
           (kwargs (self s))
           (Some Xc) (Some Xn) (Some mc) (Some mn) (Some F) (Some h).
Proof.
  unfold fit.
  destruct s as [[? ? ? ? ? kw ? ? ? ? ? ?] [? ? ? ? ? ?]]. intros H.
  proc_simpl. exec.
  repeat match goal with u : unit |- _ => destruct u end.
  repeat match goal with
    | x : st |- _ => destruct x as [[? ? ? ? ? ? ? ? ? ? ? ?] [? ? ? ? ? ?]]
    end.
  repeat match goal with
    | H : _fit_categorical _ = _ |- _ =>
        apply fit_categorical_run in H
          as (? & ? & ? & ? & ? & ? & ? & ? & ? & ?)
    | H : _fit_numerical _ = _ |- _ =>
        apply fit_numerical_run in H
          as (? & ? & ? & ? & ? & ? & ? & ? & ? & ?)
    | H : _umap_embeddings _ = _ |- _ =>
        apply umap_embeddings_run in H
          as (? & ? & ? & ? & ? & ? & ? & ? & Hfuse)
    | H : _fit_hdbscan _ = _ |- _ =>
        apply fit_hdbscan_run in H as (? & ? & ? & ? & ? & ? & ? & ?)
    end.
  proc_simpl.
  repeat match goal with
    | H : Build_DenseClus _ _ _ _ _ _ _ _ _ _ _ _ = _ |- _ =>
        injection H as ? ? ? ? ? ? ? ? ? ? ? ?; subst
    end.
  simplify_eq. destruct df as [t|?]; [|discriminate].
  eexists t, _, _, _, _, _, _, _, _, _, _, _, _, _, _, _.
  split; [reflexivity|].
  do 2 (split; [symmetry; eassumption|]).
  do 6 (split; [eassumption|]).
  split.
  { destruct Hfuse as [(op & Hin & -> & Hop)
                      |(Xn & grp & kwa & aux & U & wa & wb & Hm & HX & Hg
                          & Hk & -> & Ha & Hu & HF)].
    - left. exists op. split; [exact Hin|]. split; [reflexivity|exact Hop].
    - right. injection HX as <-. exists grp, kwa, aux, U, wa, wb.
      split; [exact Hm|]. split; [exact Hg|]. split; [exact Hk|].
      split; [reflexivity|]. split; [exact Ha|]. split; [exact Hu|exact HF]. }
  do 2 (split; [eassumption|]).
  split; [apply fit_trace|reflexivity].
Qed.

End FitReturns.

(** ** A strategy name the constructor would have refused *)

Section Defensive.
Context {C : Collab}.

Lemma not_a_strategy m :
  m ∉ strategies ->
  String.eqb m "intersection" = false /\ String.eqb m "union" = false
  /\ String.eqb m "contrast" = false
  /\ String.eqb m "intersection_union_mapper" = false.
Proof.
  intros H. rewrite strategies_spec in H.
  repeat split; apply String.eqb_neq; intros ->; tauto.
Qed.

Lemma umap_embeddings_without_strategy s :
  umap_combine_method (self s) ∉ strategies ->
  _umap_embeddings s
  = (Raise (Exn ValueError "Select valid UMAP combine method"),
     St (self s)
        (snd (logger_error
                ("Invalid UMAP combine method: " +:+ umap_combine_method (self s))
                (snd (logger_info
                        ("Combining UMAP embeddings using method: "
                           +:+ umap_combine_method (self s)) (glob s)))))).
Proof.
  intros Hm. destruct (not_a_strategy _ Hm) as (H1 & H2 & H3 & H4).
  destruct s as [[? m ? ? ? ? ? ? ? ? ? ?] [? ? ? ? ? ?]]. proc_simpl.
  unfold _umap_embeddings, bind, gets. proc_simpl.
  unfold global, zoom. cbn. rewrite H1, H2, H3, H4. reflexivity.
Qed.

Lemma predict_base_without_strategy df s r s' :
  umap_combine_method (self s) ∉ strategies ->
  _predict_base df s = (r, s') -> exists e, r = Raise e.
Proof.
  intros Hm. destruct (not_a_strategy _ Hm) as (H1 & H2 & H3 & H4).
  unfold _predict_base.
  destruct s as [[? m ? ? ? ? ? ? ? ? ? ?] [? ? ? ? ? ?]]. proc_simpl.
  intros H. exec; eauto.
Qed.

Lemma fit_without_strategy df s r s' :
  umap_combine_method (self s) ∉ strategies ->
  fit df s = (r, s') -> exists e, r = Raise e.
Proof.
  unfold fit. destruct s as [[? m ? ? ? ? ? ? ? ? ? ?] [? ? ? ? ? ?]].
  proc_simpl. intros Hm H. exec.
  all: try solve [eauto].
  all: repeat match goal with u : unit |- _ => destruct u end.
  all: repeat match goal with
    | H : _fit_categorical _ = (Ok _, ?x) |- _ =>
        apply fit_categorical_ok in H as [? H]; destruct x; proc_simpl; subst
    | H : _fit_numerical _ = (Ok _, ?x) |- _ =>
        apply fit_numerical_ok in H as [? H]; destruct x; proc_simpl; subst
    end.
  all: match goal with
       | H : _umap_embeddings ?S = (Ok _, _) |- _ =>
           rewrite (umap_embeddings_without_strategy S) in H by assumption;
           discriminate
       end.
Qed.

(** X9. An instance whose strategy attribute is none of the four names
    (the constructor refuses such a name, so it was assigned later):
    the fusion step logs the name at ERROR level and raises the
    [ValueError] of its last branch, with no library call and the
    instance unchanged; neither [fit] nor a prediction ever returns. *)
Theorem unknown_strategy_attribute_fails_fusion s :
  umap_combine_method (self s) ∉ strategies ->
  (exists s',
     _umap_embeddings s
     = (Raise (Exn ValueError "Select valid UMAP combine method"), s')
     /\ self s' = self s
     /\ calls (glob s') = calls (glob s)
     /\ world (glob s') = world (glob s)
     /\ ((logger_level (glob s) <= ERROR)%Z ->
         error_records (glob s')
         = error_records (glob s)
           ++ ["Invalid UMAP combine method: " +:+ umap_combine_method (self s)]))
  /\ (forall df, exists e, fst (fit df s) = Raise e)
  /\ (forall df, exists e, fst (predict df s) = Raise e)
  /\ (forall df, exists e, fst (predict_proba df s) = Raise e).
Proof.
  intros Hm. split; [|split; [|split]].
  - eexists. split; [now apply umap_embeddings_without_strategy|].
    destruct s as [d [l h f sw w c]].
    unfold logger_error, logger_info, logger_log, modify. cbn.
    destruct (Z.leb l INFO); cbn;
      (repeat split; try solve [now destruct (Z.leb l ERROR)]);
      intros Hl; unfold error_records;
      rewrite (proj2 (Z.leb_le l ERROR) Hl); cbn;
      rewrite !omap_app; cbn; now rewrite ?app_nil_r.
  - intros df. destruct (fit df s) as [r s'] eqn:E. simpl.
    eapply fit_without_strategy; eauto.
  - intros df. unfold predict, bind.
    destruct (_predict_base df s) as [[a|e] s'] eqn:E; simpl; [|eauto].
    apply predict_base_without_strategy in E as [? [=]]; assumption.
  - intros df. unfold predict_proba, bind.
    destruct (_predict_base df s) as [[a|e] s'] eqn:E; simpl; [|eauto].
    apply predict_base_without_strategy in E as [? [=]]; assumption.
Qed.

End Defensive.

(** ** What the queries ask of the libraries and leave alone *)

Section Queries.
Context {C : Collab}.

Lemma predict_base_reuses df s r s' :
  umap_combine_method (self s) <> "intersection_union_mapper" ->
  _predict_base df s = (r, s') ->
  adds_only (reuse_call df (self s)) (glob s) (glob s').
Proof.
  unfold _predict_base.
  destruct s as [[? m ? ? ? ? ? ? ? ? ? ?] [? ? ? ? ? ?]]. proc_simpl.
  intros Hm H. exec.
  all: try (exfalso; apply Hm; now apply String.eqb_eq).
  all: unfold adds_only; proc_simpl; eexists; (split; [events_eq|]);
    cbn [app]; repeat first [apply Forall_nil_2 | apply Forall_cons_2];
    simpl; auto.
Qed.

Lemma score_run s :
  score s = (match hdbscan_ (self s) with
             | Some h => Ok (labels_ h)
             | None => Raise (missing "hdbscan_")
             end, s).
Proof.
  unfold score, bind, getattr, ret. now destruct (hdbscan_ (self s)).
Qed.

Lemma predict_keeps_self df s : self (snd (predict df s)) = self s.
Proof.
  unfold predict, bind.
  destruct (_predict_base df s) as [[a|e] s1] eqn:E; simpl;
    eapply predict_base_keeps_self; eauto.
Qed.

Lemma predict_proba_keeps_self df s : self (snd (predict_proba df s)) = self s.
Proof.
  unfold predict_proba, bind.
  destruct (_predict_base df s) as [[a|e] s1] eqn:E; simpl;
    eapply predict_base_keeps_self; eauto.
Qed.

Lemma predict_final_state df s : snd (predict df s) = snd (_predict_base df s).
Proof.
  unfold predict, bind. now destruct (_predict_base df s) as [[a|e] s1].
Qed.

Lemma predict_proba_final_state df s :
  snd (predict_proba df s) = snd (_predict_base df s).
Proof.
  unfold predict_proba, bind. now destruct (_predict_base df s) as [[a|e] s1].
Qed.

(** X10. Under the three strategies that combine coordinates, a
    prediction, whatever its outcome, asks the libraries only for the
    two extractions of its argument, transforms by the instance's own
    two embedding models, arithmetic on coordinate matrices, and an
    approximate prediction by the instance's own cluster model: nothing
    is fitted and no model is composed. *)
Theorem simple_prediction_reuses_the_fitted_models df s :
  umap_combine_method (self s) <> "intersection_union_mapper" ->
  adds_only (reuse_call df (self s)) (glob s) (glob (snd (predict df s)))
  /\ adds_only (reuse_call df (self s)) (glob s)
       (glob (snd (predict_proba df s))).
Proof.
  intros Hm. rewrite predict_final_state, predict_proba_final_state.
  destruct (_predict_base df s) as [r s'] eqn:E. simpl.
  split; eapply predict_base_reuses; eauto.
Qed.

(** X11. The queries leave every attribute of the instance as it was,
    whatever their outcome, so a prediction never replaces a fitted
    model and repeated queries see the same instance; [score] touches
    neither the instance nor the process. *)
Theorem queries_leave_the_instance df s :
  self (snd (predict df s)) = self s
  /\ self (snd (predict_proba df s)) = self s
  /\ snd (score s) = s.
Proof.
  split; [apply predict_keeps_self|].
  split; [apply predict_proba_keeps_self|]. now rewrite score_run.
Qed.

(** X12. [score] after [fit]: when the [fit] returned, [score] returns
    the labels of the cluster model that [fit] stored; when the [fit]
    raised, [score] answers as it did before that [fit], with the labels
    of the earlier fit if there was one. *)
Theorem score_follows_the_last_returned_fit df s :
  match fst (fit df s) with
  | Ok _ =>
      exists h, hdbscan_ (self (snd (fit df s))) = Some h
                /\ fst (score (snd (fit df s))) = Ok (labels_ h)
  | Raise _ => fst (score (snd (fit df s))) = fst (score s)
  end.
Proof.
  destruct (fit df s) as [[[]|e] s'] eqn:E; simpl.
  - apply fit_ok_fitted in E as (_ & _ & _ & [h Hh]).
    exists h. split; [exact Hh|]. now rewrite score_run, Hh.
  - apply failed_fit_keeps_hdbscan in E. now rewrite !score_run, E.
Qed.

End Queries.

(** ** The verbosity is the process's *)

Section Verbosity.
Context {C : Collab}.

Lemma on_instance_level {A} i (m : M st A) P :
  (forall rs hp, preserves (method_step rs hp) m) ->
  logger_level (pglob (on_instance i m P)) = logger_level (pglob P).
Proof.
  intros Hm. unfold on_instance.
  destruct (objs P !! i) as [d|]; [|reflexivity]. simpl.
  destruct (m (St d (pglob P))) as [r s'] eqn:E. simpl.
  destruct (Hm (random_state d) (hdbscan_params d) _ _ _ E eq_refl eq_refl)
    as (_ & h & w & evs & -> & _).
  reflexivity.
Qed.

Lemma method_call_level P c :
  constructs c = false ->
  logger_level (pglob (api_step P c)) = logger_level (pglob P).
Proof.
  destruct c as [rs m v up hp kw|i df|i df|i df|i|msg]; simpl;
    [discriminate|intros _..].
  - apply on_instance_level. intros; apply step_fit.
  - apply on_instance_level. intros; apply step_predict.
  - apply on_instance_level. intros; apply step_predict_proba.
  - apply on_instance_level. intros; apply step_score.
  - unfold warnings_warn_call, modify. simpl.
    destruct (pglob P) as [? ? [] ? ? ?]; reflexivity.
Qed.

Lemma method_calls_level cs : forall P,
  forallb (fun c => negb (constructs c)) cs = true ->
  logger_level (pglob (api_run P cs)) = logger_level (pglob P).
Proof.
  unfold api_run. induction cs as [|c cs IH]; intros P; simpl; [done|].
  intros [Hc Hcs]%andb_true_iff. apply negb_true_iff in Hc.
  rewrite IH by done. now apply method_call_level.
Qed.

(** X13. The verbosity is the process's, not the instance's: after a
    construction that passes the validations, and until the next
    construction, the logger level is the one that construction set,
    whatever instance the methods are called on and whatever [verbose]
    that instance was constructed with. *)
Theorem verbosity_is_of_the_last_construction P rs m v up hp kw cs :
  m ∈ strategies ->
  (forall user, up = Some user -> first_unknown_group user = None) ->
  forallb (fun c => negb (constructs c)) cs = true ->
  logger_level (pglob (api_run (api_step P (New rs m v up hp kw)) cs))
  = (if v then DEBUG else ERROR).
Proof.
  intros Hm Hup Hcs. rewrite method_calls_level by done.
  destruct (init_valid_proc rs m v up hp kw (pglob P) Hm Hup) as [Hl _].
  simpl. now destruct (__init__ rs m v up hp kw (pglob P)) as [[d|e] p'].
Qed.

End Verbosity.

(** ** Without a seed *)

Section Unseeded.
Context {C : Collab}.

Lemma unseeded_step {A} (m : M st A) s :
  (forall rs hp, preserves (method_step rs hp) m) ->
  random_state (self s) = None ->
  exists evs,
    calls (glob (snd (m s))) = calls (glob s) ++ evs
    /\ forall kw X, EvUmapFit kw X ∈ evs ->
         kw !! "random_state" = Some VNone
         /\ kw !! "n_jobs" = Some (VInt (-1)).
Proof.
  intros Hm Hr. destruct (m s) as [r s'] eqn:E. simpl.
  destruct (Hm None (hdbscan_params (self s)) _ _ _ E Hr eq_refl)
    as (_ & h & w & evs & -> & Hf).
  exists evs. split; [reflexivity|]. intros kw X Hin.
  rewrite Forall_forall in Hf. exact (Hf _ Hin).
Qed.

(** X14. On an instance constructed without a seed, every embedding fit
    that [fit] or a prediction asks for, the auxiliary fits of the
    hybrid strategy included, is given [random_state=None] and
    [n_jobs=-1]. *)
Theorem unseeded_embedding_fits_use_all_cores df s :
  random_state (self s) = None ->
  (exists evs,
     calls (glob (snd (fit df s))) = calls (glob s) ++ evs
     /\ forall kw X, EvUmapFit kw X ∈ evs ->
          kw !! "random_state" = Some VNone
          /\ kw !! "n_jobs" = Some (VInt (-1)))
  /\ (exists evs,
       calls (glob (snd (predict df s))) = calls (glob s) ++ evs
       /\ forall kw X, EvUmapFit kw X ∈ evs ->
            kw !! "random_state" = Some VNone
            /\ kw !! "n_jobs" = Some (VInt (-1))).
Proof.
  intros Hr. split; apply unseeded_step; try assumption; intros rs hp.
  - apply step_fit.
  - apply step_predict.
Qed.

End Unseeded.

(** ** The claims on concrete runs *)

Section Concrete.
#[local] Existing Instance Small.collab.

Lemma small_reproducible : reproducible (C := Small.collab) (fun _ => True).
Proof.
  split; try done.
  - intros z w w'. simpl. unfold Small.seed_numpy. now destruct (bool_decide _).
  - intros kw X w w' [[seed Hs] Hj]. simpl. unfold Small.fit_umap.
    rewrite Hs, Hj. destruct (bool_decide _); [|done]. now destruct X.
  - intros op m o w w' _. now destruct o.
  - intros kw X w w'. simpl. unfold Small.fit_hdbscan.
    destruct (kw !! "min_samples") as [[]|]; try done.
    now destruct (Z.ltb _ _).
Qed.

(** C3: on a freshly constructed instance [score] raises, and what it
    raises is not a [NotFittedError]. *)
Lemma score_before_fit_is_not_NotFittedError :
  ~ (exists e,
       fst (score (Small.constructed "intersection" None)) = Raise e
       /\ isinstance e NotFittedError = true).
Proof. intros (e & H & Hi). vm_compute in H. injection H as <-. discriminate. Qed.

(** C2: in a hybrid fit the third embedding fit, the auxiliary one, is
    given the numerical features, which are not the embedding of the
    numerical model. *)
Lemma auxiliary_model_fit_on_features_not_on_embedding :
  Small.umap_fit_inputs
    (calls (glob (Small.after_fit "intersection_union_mapper"
                    (Some Small.one_sample))))
  = [ [[1]; [0]; [1]]; [[3]; [5]; [-4]]; [[3]; [5]; [-4]] ]
  /\ (embedding_ <$>
        numerical_umap_
          (self (Small.after_fit "intersection_union_mapper"
                   (Some Small.one_sample))))
     = Some [[45]; [47]; [38]]
  /\ [[3]; [5]; [-4]] <> [[45]; [47]; [38]].
Proof. split; [|split]; [vm_compute; reflexivity..|discriminate]. Qed.


(** C8: with the seed 42 the cluster fit is given no seed, and the eight
    jobs of the clustering parameters. *)
Lemma cluster_fit_is_not_forced_single_threaded :
  (fun kw : dict =>
     (kw !! "random_state", kw !! "n_jobs", kw !! "core_dist_n_jobs")) <$>
    Small.cluster_fit_keywords
      (calls (glob (Small.after_fit "union" (Some Small.eight_jobs))))
  = [(None, None, Some (VInt 8))].
Proof. vm_compute. reflexivity. Qed.

(** The log of a failed categorical fit, step 2: the record names the
    numerical step. *)
Lemma categorical_failure_is_labelled_numerical :
  fst (fst Small.fitted_with_unknown_keyword)
  = Raise (Exn TypeError "UMAP() got an unexpected keyword argument")
  /\ Small.umap_fit_inputs (calls (snd Small.fitted_with_unknown_keyword))
     = [ [[1]; [0]; [1]] ]
  /\ handled (snd Small.fitted_with_unknown_keyword)
     = [(ERROR,
         "Failed to fit numerical UMAP: UMAP() got an unexpected keyword argument")].
Proof. repeat split; vm_compute; reflexivity. Qed.

Lemma predict_combines_as_configured_witness :
  exists r : result (list Z * list Z),
    fst (predict (DataFrame Small.table)
           (Small.after_fit "intersection" (Some Small.one_sample)))
    = result_map fst r.
Proof.
  pose proof (predict_combines_as_configured
                (Small.after_fit "intersection" (Some Small.one_sample))
                Intersection) as H.
  let cu := eval vm_compute in
      (categorical_umap_
         (self (Small.after_fit "intersection" (Some Small.one_sample)))) in
  let nu := eval vm_compute in
      (numerical_umap_
         (self (Small.after_fit "intersection" (Some Small.one_sample)))) in
  let h := eval vm_compute in
      (hdbscan_
         (self (Small.after_fit "intersection" (Some Small.one_sample)))) in
  let c := eval vm_compute in
      (umap_params
         (self (Small.after_fit "intersection" (Some Small.one_sample)))
         !! "combined") in
  match constr:((cu, nu, h, c)) with
  | (Some ?cu, Some ?nu, Some ?h, Some ?c) =>
      specialize (H cu nu h c (DataFrame Small.table))
  end.
  destruct H as (r & s' & p' & _ & _ & _ & _ & Hp & _);
    [reflexivity..|].
  exists r. rewrite Hp. reflexivity.
Defined.

Lemma hybrid_fusion_witness :
  exists s', _umap_embeddings Small.before_fusion = (Ok tt, s').
Proof.
  pose proof (hybrid_fusion_fits_auxiliary_on_numerical_features
                Small.before_fusion [[3]; [5]; [-4]]
                (Small.Fitted ∅ [[3]; [5]; [-4]] 42)
                (Small.Fitted ∅ [[1]; [0]; [1]] 42)) as H.
  let c := eval vm_compute in (default_umap_params !! "combined") in
  match c with
  | Some ?c =>
      let kw := eval vm_compute in
                  (call_kwargs "UMAP"
                     [("random_state", VInt 42); ("n_jobs", VInt 1)] c) in
      match kw with
      | Ok ?kw =>
          specialize (H c kw
                        (Small.Fitted kw [[3]; [5]; [-4]] 42)
                        (Small.Composed Add
                           (Small.Fitted ∅ [[3]; [5]; [-4]] 42)
                           (Small.Fitted ∅ [[1]; [0]; [1]] 42))
                        (Small.Composed Mul
                           (Small.Fitted kw [[3]; [5]; [-4]] 42)
                           (Small.Composed Add
                              (Small.Fitted ∅ [[3]; [5]; [-4]] 42)
                              (Small.Fitted ∅ [[1]; [0]; [1]] 42)))
                        8 8 8)
      end
  end.
  destruct H as (s' & H & _); [reflexivity..|].
  exists s'. exact H.
Defined.

Lemma unfitted_instance_witness :
  score (Small.constructed "intersection" None)
  = (Raise (missing "hdbscan_"), Small.constructed "intersection" None).
Proof.
  apply (unfitted_instance_raises_attribute_error
           (Small.constructed "intersection" None)).
  vm_compute. reflexivity.
Defined.


Lemma strategy_checked_witness :
  __init__ (Some 42) "median" false None None ∅ Small.start
  = (Raise InvalidStrategy, Small.start).
Proof.
  apply (strategy_checked_at_construction (Some 42) "median" false None None ∅
           Small.start).
  apply (bool_decide_unpack _). vm_compute. exact I.
Defined.

Lemma unknown_group_witness :
  exists k,
    __init__ (Some 42) "union" false (Some Small.groups_with_unknown) None ∅
      Small.start
    = (Raise (InvalidConfigKey k), Small.start).
Proof.
  edestruct (unknown_group_rejected_known_groups_merged (Some 42) "union" false
               Small.groups_with_unknown None ∅ Small.start)
    as [H _].
  - apply (bool_decide_unpack _). vm_compute. exact I.
  - destruct (H "text") as (k & _ & _ & _ & Hk).
    + apply (bool_decide_unpack _). vm_compute. exact I.
    + vm_compute. reflexivity.
    + exists k. exact Hk.
Defined.

Lemma non_table_argument_witness :
  fit (NotDataFrame (VStr "a.csv")) (Small.constructed "union" None)
  = (Raise (Exn TypeError "Requires DataFrame as input"),
     Small.constructed "union" None).
Proof.
  apply (non_table_argument_is_a_type_error (VStr "a.csv")
           (Small.constructed "union" None)).
Defined.

Lemma seeded_runs_witness :
  fst (construct_and_fit (Some 42) "intersection_union_mapper" false None
         (Some Small.one_sample) ∅ Small.table Small.start)
  = fst (construct_and_fit (Some 42) "intersection_union_mapper" false None
           (Some Small.one_sample) ∅ Small.table Small.start_again).
Proof.
  apply (seeded_runs_agree (fun _ => True) small_reproducible 42).
Defined.

Lemma cluster_parameters_witness :
  exists d p',
    __init__ (Some 42) "contrast" false None (Some Small.one_sample) ∅
      Small.start = (Ok d, p')
    /\ hdbscan_params d = Small.one_sample.
Proof.
  destruct (__init__ (Some 42) "contrast" false None (Some Small.one_sample) ∅
              Small.start) as [[d|e] p'] eqn:E.
  - exists d, p'. split; [reflexivity|].
    apply (cluster_parameters_replace_the_defaults (Some 42) "contrast" false
             None Small.one_sample ∅ Small.start d p'); [|exact E].
    intros H. apply (f_equal (fun d : dict => d !! "min_samples")) in H.
    vm_compute in H. discriminate.
  - exfalso.
    assert (Hok : match fst (__init__ (Some 42) "contrast" false None
                               (Some Small.one_sample) ∅ Small.start) with
                  | Ok _ => true
                  | Raise _ => false
                  end = true) by (vm_compute; reflexivity).
    rewrite E in Hok. discriminate.
Defined.


(** The further properties on concrete runs. *)

Lemma constructed_instance_groups_witness :
  exists d p',
    __init__ (Some 42) "union" false
      (Some [("numerical", {[ "n_neighbors" := VInt 10 ]})]) None ∅
      Small.start = (Ok d, p')
    /\ dom (umap_params d)
       = ({[ "categorical"; "numerical"; "combined" ]} : gset string).
Proof.
  destruct (__init__ (Some 42) "union" false
              (Some [("numerical", {[ "n_neighbors" := VInt 10 ]})]) None ∅
              Small.start) as [[d|e] p'] eqn:E.
  - exists d, p'. split; [reflexivity|].
    exact (proj1 (constructed_instance_has_the_three_groups _ _ _ _ _ _ _ _ _ E)).
  - exfalso.
    assert (Hok : match fst (__init__ (Some 42) "union" false
                               (Some [("numerical",
                                       {[ "n_neighbors" := VInt 10 ]})])
                               None ∅ Small.start) with
                  | Ok _ => true
                  | Raise _ => false
                  end = true) by (vm_compute; reflexivity).
    rewrite E in Hok. discriminate.
Defined.

Lemma refused_seed_witness :
  fst (__init__ (Some (-1)) "union" false None None ∅ Small.start)
  = Raise (Exn ValueError "Seed must be between 0 and 2**32 - 1")
  /\ warnings_warn
       (snd (__init__ (Some (-1)) "union" false None None ∅ Small.start))
     = warn_noop.
Proof.
  destruct (refused_seed_leaves_the_side_effects (-1) "union" false None None ∅
              Small.start
              (Exn ValueError "Seed must be between 0 and 2**32 - 1") 7)
    as (H1 & _ & H3 & _).
  - apply (bool_decide_unpack _). vm_compute. exact I.
  - discriminate.
  - reflexivity.
  - split; [exact H1|exact H3].
Defined.

Lemma reserved_embedding_keyword_witness :
  exists e s',
    _fit_numerical Small.with_reserved_keywords = (Raise e, s')
    /\ exn_class e = TypeError.
Proof.
  destruct (reserved_embedding_keyword_is_a_type_error
              Small.with_reserved_keywords "numerical"
              {[ "n_jobs" := VInt 4 ]} "n_jobs") as (_ & H & _).
  - apply (bool_decide_unpack _). vm_compute. exact I.
  - vm_compute. reflexivity.
  - apply (bool_decide_unpack _). vm_compute. exact I.
  - exists (VInt 4). vm_compute. reflexivity.
  - destruct (H eq_refl) as (e & s' & He & Hc & _).
    exists e, s'. split; [exact He|exact Hc].
Defined.

Lemma prediction_data_witness :
  exists e s',
    _fit_hdbscan Small.with_reserved_keywords = (Raise e, s')
    /\ exn_class e = TypeError.
Proof.
  destruct (prediction_data_in_parameters_is_a_type_error
              Small.with_reserved_keywords (VBool false))
    as ((e & s' & He & Hc & _) & _).
  - vm_compute. reflexivity.
  - exists e, s'. split; [exact He|exact Hc].
Defined.

Lemma returned_fit_witness :
  exists s',
    fit (DataFrame Small.table)
      (Small.constructed "union" (Some Small.one_sample)) = (Ok tt, s')
    /\ is_Some (hdbscan_ (self s')).
Proof.
  destruct (fit (C := Small.collab) (DataFrame Small.table)
              (Small.constructed "union" (Some Small.one_sample)))
    as [[[]|e] s'] eqn:E.
  - exists s'. split; [reflexivity|].
    destruct (returned_fit_called_in_order _ _ _ E)
      as (t & Xc & Xn & gc & gn & kwc & kwn & mc & mn & w1 & w2 & fuse & F
          & w3 & kwh & h
          & _ & _ & _ & _ & _ & _ & _ & _ & _ & _ & _ & _ & _ & Hs).
    rewrite Hs. exists h. reflexivity.
  - exfalso.
    assert (Hok : match fst (fit (C := Small.collab) (DataFrame Small.table)
                               (Small.constructed "union"
                                  (Some Small.one_sample))) with
                  | Ok _ => true
                  | Raise _ => false
                  end = true) by (vm_compute; reflexivity).
    rewrite E in Hok. discriminate.
Defined.

Lemma quiet_fit_witness :
  (INFO < logger_level (glob (Small.constructed "union" None)))%Z
  /\ logger_level
       (glob (snd (fit (DataFrame Small.table)
                     (Small.constructed "union" None))))
     = logger_level (glob (Small.constructed "union" None)).
Proof.
  assert (Hl : (INFO < logger_level (glob (Small.constructed "union" None)))%Z)
    by (vm_compute; reflexivity).
  split; [exact Hl|].
  exact (proj1 (quiet_fit_logs_at_most_one_error (C := Small.collab)
                  (DataFrame Small.table)
                  (Small.constructed "union" None) Hl)).
Defined.

Lemma unknown_strategy_witness :
  exists s',
    _umap_embeddings Small.reassigned
    = (Raise (Exn ValueError "Select valid UMAP combine method"), s').
Proof.
  assert (Hm : umap_combine_method (self Small.reassigned) ∉ strategies)
    by (apply (bool_decide_unpack _); vm_compute; exact I).
  destruct (proj1 (unknown_strategy_attribute_fails_fusion Small.reassigned Hm))
    as (s' & H & _).
  exists s'. exact H.
Defined.

Lemma simple_prediction_witness :
  adds_only
    (reuse_call (DataFrame Small.table)
       (self (Small.after_fit "union" (Some Small.one_sample))))
    (glob (Small.after_fit "union" (Some Small.one_sample)))
    (glob (snd (predict (DataFrame Small.table)
                  (Small.after_fit "union" (Some Small.one_sample))))).
Proof.
  assert (Hm : umap_combine_method
                 (self (Small.after_fit "union" (Some Small.one_sample)))
               <> "intersection_union_mapper")
    by (intros H; vm_compute in H; discriminate).
  exact (proj1 (simple_prediction_reuses_the_fitted_models
                  (C := Small.collab) (DataFrame Small.table)
                  (Small.after_fit "union" (Some Small.one_sample)) Hm)).
Defined.

Lemma verbosity_witness :
  logger_level
    (pglob
       (api_run
          (api_step
             (api_step (Process [] Small.start)
                (New (Some 42) "union" true None None ∅))
             (New (Some 42) "contrast" false None None ∅))
          [Fit 0 (DataFrame Small.table); Score 0]))
  = ERROR.
Proof.
  apply (verbosity_is_of_the_last_construction (C := Small.collab)
           (api_step (Process [] Small.start)
              (New (Some 42) "union" true None None ∅))
           (Some 42) "contrast" false None None ∅
           [Fit (C := Small.collab) 0 (DataFrame Small.table); Score 0]).
  - apply (bool_decide_unpack _). vm_compute. exact I.
  - discriminate.
  - reflexivity.
Defined.

Lemma unseeded_fits_witness :
  random_state (self Small.unseeded) = None
  /\ exists evs,
       calls (glob (snd (fit (DataFrame Small.table) Small.unseeded)))
       = calls (glob Small.unseeded) ++ evs
       /\ Small.umap_fit_inputs evs = [ [[1]; [0]; [1]]; [[3]; [5]; [-4]] ]
       /\ forall kw X,
            EvUmapFit kw X ∈ evs ->
            kw !! "random_state" = Some VNone
            /\ kw !! "n_jobs" = Some (VInt (-1)).
Proof.
  assert (Hr : random_state (self Small.unseeded) = None)
    by (vm_compute; reflexivity).
  split; [exact Hr|].
  destruct (proj1 (unseeded_embedding_fits_use_all_cores (C := Small.collab)
                     (DataFrame Small.table) Small.unseeded Hr))
    as (evs & H & Hkw).
  exists evs. split; [exact H|]. split; [|exact Hkw].
  assert (Hc : calls (glob Small.unseeded) = []) by reflexivity.
  rewrite Hc in H. change ([] ++ evs) with evs in H. rewrite <- H.
  vm_compute. reflexivity.
Defined.

Lemma unseeded_construction_witness :
  handled (snd (__init__ None "union" true None None ∅ Small.start))
  = handled Small.start
    ++ [(INFO, "No random seed passed, running UMAP in Numba, parallel")].
Proof.
  refine (proj1 (unseeded_construction_logs_when_verbose "union" true None None
                   ∅ Small.start _ _)).
  - apply (bool_decide_unpack _). vm_compute. exact I.
  - discriminate.
Defined.

End Concrete.
